(** * XScraper: the extraction and collection engine of [scraper.py]

    A shallow embedding of the class [TwitterScraper]
    (src/scraper/scraper.py) and the properties of its numeric
    normalizer, engagement resolver, post classifier, record builder and
    scroll collector.

    Conventions of the embedding.
    - A Python [str] is a [string]: a sequence of 8-bit code points, read
      as U+0000..U+00FF.  The character classes of [re] and of the [str]
      methods are tabulated for this range as CPython defines them.
    - A Python [float] is a binary64 value, [spec_float] with precision 53
      and maximal exponent 1024; arithmetic is the IEEE 754 specification
      of the Standard Library, rounding to nearest, ties to even.
    - A Python [int] is a [Z].
    - A call that may raise returns a [result]; the browser (Playwright)
      is an oracle whose answers are part of the input. *)

From Stdlib Require Import ZArith NArith String Ascii List Bool Lia.
From Stdlib Require Import Numbers.DecimalString.
From Stdlib Require Import Floats.SpecFloat.
From stdpp Require Import base decidable option list gmap strings.

Set Warnings "-clear-no-such-hyp".

Local Open Scope Z_scope.

(** ** Exceptions *)

Inductive exn : Type :=
| ValueError
| OverflowError
| PlaywrightError.

Inductive result (A : Type) : Type :=
| Ok (a : A)
| Raise (e : exn).

Arguments Ok {A} a.
Arguments Raise {A} e.

#[global] Instance result_ret : MRet result := fun A a => Ok a.

#[global] Instance result_bind : MBind result := fun A B k r =>
  match r with
  | Ok a => k a
  | Raise e => Raise e
  end.

(** ** Python strings *)

Module PyStr.

Definition code (c : ascii) : N := N_of_ascii c.

Definition in_range (lo hi : N) (c : ascii) : bool :=
  ((lo <=? code c) && (code c <=? hi))%N.

(** [\d] and [str.isdecimal]: below U+0100 only the ASCII digits. *)
Definition is_digit (c : ascii) : bool := in_range 48 57 c.

(** [\s] and the characters removed by [str.strip()]:
    TAB..CR, FS..US, space, NEL and NBSP. *)
Definition is_space (c : ascii) : bool :=
  in_range 9 13 c || in_range 28 32 c
  || (code c =? 133)%N || (code c =? 160)%N.

(** [\w]: [str.isalnum] or underscore.  Below U+0100 these are the ASCII
    letters and digits, the letters U+00AA, U+00B5, U+00BA,
    U+00C0..U+00D6, U+00D8..U+00F6, U+00F8..U+00FF, the superscript
    digits U+00B2, U+00B3, U+00B9 and the fractions U+00BC..U+00BE. *)
Definition is_word (c : ascii) : bool :=
  in_range 48 57 c || in_range 65 90 c || in_range 97 122 c
  || (code c =? 95)%N
  || (code c =? 170)%N || (code c =? 181)%N || (code c =? 186)%N
  || in_range 178 179 c || (code c =? 185)%N || in_range 188 190 c
  || in_range 192 214 c || in_range 216 246 c || in_range 248 255 c.

(** [str.lower] on one character: A..Z, U+00C0..U+00D6, U+00D8..U+00DE
    move up by 32. *)
Definition lower_char (c : ascii) : ascii :=
  if in_range 65 90 c || in_range 192 214 c || in_range 216 222 c
  then ascii_of_N (code c + 32)
  else c.

(** [str.upper] on the ASCII letters (the only use is on group 2 of the
    suffix pattern, a letter among k, m, b in either case). *)
Definition upper_char (c : ascii) : ascii :=
  if in_range 97 122 c then ascii_of_N (code c - 32) else c.

Fixpoint map_chars (f : ascii -> ascii) (s : string) : string :=
  match s with
  | EmptyString => EmptyString
  | String c s' => String (f c) (map_chars f s')
  end.

Definition lower : string -> string := map_chars lower_char.
Definition upper : string -> string := map_chars upper_char.

(** [s.replace(c, "")] for a one-character [c]. *)
Fixpoint remove_char (c : ascii) (s : string) : string :=
  match s with
  | EmptyString => EmptyString
  | String a s' =>
      if Ascii.eqb a c then remove_char c s' else String a (remove_char c s')
  end.

Fixpoint lstrip (s : string) : string :=
  match s with
  | EmptyString => EmptyString
  | String c s' => if is_space c then lstrip s' else s
  end.

Fixpoint rstrip (s : string) : string :=
  match s with
  | EmptyString => EmptyString
  | String c s' =>
      match rstrip s' with
      | EmptyString => if is_space c then EmptyString else String c EmptyString
      | t => String c t
      end
  end.

(** [s.strip()] *)
Definition strip (s : string) : string := lstrip (rstrip s).

(** The longest prefix whose characters satisfy [p], and what follows:
    what a greedy [p+] or [p*] consumes. *)
Fixpoint span (p : ascii -> bool) (s : string) : string * string :=
  match s with
  | EmptyString => (EmptyString, EmptyString)
  | String c s' =>
      if p c then let '(a, b) := span p s' in (String c a, b)
      else (EmptyString, s)
  end.

(** What stops a greedy run: the end of the text or a character outside
    the class. *)
Definition stops (p : ascii -> bool) (s : string) : bool :=
  match s with
  | EmptyString => true
  | String c _ => negb (p c)
  end.

Fixpoint forallb (p : ascii -> bool) (s : string) : bool :=
  match s with
  | EmptyString => true
  | String c s' => p c && forallb p s'
  end.

Definition is_empty (s : string) : bool :=
  match s with EmptyString => true | _ => false end.

(** [needle in haystack] *)
Fixpoint contains (needle haystack : string) : bool :=
  String.prefix needle haystack
  || match haystack with
     | EmptyString => false
     | String _ h' => contains needle h'
     end.

(** The value of a digit ([0] for a character below the digits, which
    no caller passes). *)
Definition digit_value (c : ascii) : Z := Z.of_N (code c - 48).

(** Value of a string of ASCII digits, most significant first. *)
Fixpoint digits_value (acc : Z) (s : string) : Z :=
  match s with
  | EmptyString => acc
  | String c s' => digits_value (10 * acc + digit_value c) s'
  end.

(** [str(n)] for an [int]. *)
Definition str_of_int (n : Z) : string := NilZero.string_of_int (Z.to_int n).

(** Digits of an [int] literal after the first one: digits, each
    optionally preceded by a single underscore. *)
Fixpoint int_tail (acc : Z) (s : string) : option Z :=
  match s with
  | EmptyString => Some acc
  | String c s' =>
      if is_digit c then int_tail (10 * acc + digit_value c) s'
      else if Ascii.eqb c "_" then
        match s' with
        | String d s'' =>
            if is_digit d then int_tail (10 * acc + digit_value d) s''
            else None
        | EmptyString => None
        end
      else None
  end.

Definition int_unsigned (s : string) : option Z :=
  match s with
  | String c s' => if is_digit c then int_tail (digit_value c) s' else None
  | EmptyString => None
  end.

(** [int(s)] in base 10: surrounding whitespace, an optional sign, then
    digits; [None] stands for [ValueError]. *)
Definition int_of_str (s : string) : option Z :=
  match strip s with
  | String c s' =>
      if Ascii.eqb c "+" then int_unsigned s'
      else if Ascii.eqb c "-" then Z.opp <$> int_unsigned s'
      else int_unsigned (String c s')
  | EmptyString => None
  end.

End PyStr.

(** ** binary64 *)

Module Float64.

Definition prec : Z := 53.
Definition emax : Z := 1024.

(** An integer as an unrounded operand. *)
Definition exact (n : Z) : spec_float :=
  match n with
  | Z0 => S754_zero false
  | Zpos p => S754_finite false p 0
  | Zneg p => S754_finite true p 0
  end.

(** [float(n)] for an [int] (also the literals [1e3], [1e6], [1e9]). *)
Definition of_int (n : Z) : spec_float := binary_normalize prec emax n 0 false.

Definition mul : spec_float -> spec_float -> spec_float := SFmul prec emax.

(** The binary64 nearest to [n / 10^k]: what [float] returns for the
    decimal literal with digits [n] and [k] digits after the point. *)
Definition of_decimal (n : Z) (k : nat) : spec_float :=
  SFdiv prec emax (exact n) (exact (10 ^ Z.of_nat k)).

(** [int(x)]: truncation toward zero; infinities raise [OverflowError],
    NaN raises [ValueError]. *)
Definition to_int (x : spec_float) : result Z :=
  match x with
  | S754_zero _ => Ok 0
  | S754_finite s m e => Ok (cond_Zopp s (Z.shiftl (Zpos m) e))
  | S754_infinity _ => Raise OverflowError
  | S754_nan => Raise ValueError
  end.

(** A finite value below zero. *)
Definition negative (x : spec_float) : bool :=
  match x with
  | S754_finite s _ _ => s
  | _ => false
  end.

(** [float(s)] for a string of digits and dots, which is all that group 1
    of the suffix pattern can hold: digits, at most one dot, at least
    one digit; anything else is a [ValueError]. *)
Definition of_str (s : string) : result spec_float :=
  let '(ip, r) := PyStr.span PyStr.is_digit s in
  match r with
  | EmptyString =>
      if PyStr.is_empty ip then Raise ValueError
      else Ok (of_decimal (PyStr.digits_value 0 ip) 0)
  | String c fp =>
      if Ascii.eqb c "."
         && PyStr.forallb PyStr.is_digit fp
         && negb (PyStr.is_empty ip && PyStr.is_empty fp)
      then Ok (of_decimal (PyStr.digits_value (PyStr.digits_value 0 ip) fp)
                          (String.length fp))
      else Raise ValueError
  end.

End Float64.

(** ** [handle_suffix] *)

(** [[\d.]] *)
Definition is_num_char (c : ascii) : bool :=
  PyStr.is_digit c || Ascii.eqb c ".".

(** [[KMB]] under [re.IGNORECASE]. *)
Definition is_KMB (c : ascii) : bool :=
  let u := PyStr.upper_char c in
  Ascii.eqb u "K" || Ascii.eqb u "M" || Ascii.eqb u "B".

(** A match of [([\d.]+)\s*([KMB])?] that starts at the head of [s]:
    every quantifier takes all it can and what follows it is optional, so
    the greedy attempt is the match.  Returns groups 1 and 2. *)
Definition match_suffix_here (s : string) : option (string * option string) :=
  let '(g1, r) := PyStr.span is_num_char s in
  if PyStr.is_empty g1 then None
  else
    let '(_, r') := PyStr.span PyStr.is_space r in
    match r' with
    | String k _ =>
        if is_KMB k then Some (g1, Some (String k EmptyString))
        else Some (g1, None)
    | EmptyString => Some (g1, None)
    end.

(** [re.search(r"([\d.]+)\s*([KMB])?", s, re.IGNORECASE)]: the leftmost
    position with a match. *)
Fixpoint search_suffix (s : string) : option (string * option string) :=
  match match_suffix_here s with
  | Some m => Some m
  | None =>
      match s with
      | EmptyString => None
      | String _ s' => search_suffix s'
      end
  end.

(** [suffix_map.get(suffix, 1)] *)
Definition suffix_map_get (suffix : string) : spec_float :=
  if String.eqb suffix "K" then Float64.of_int 1000
  else if String.eqb suffix "M" then Float64.of_int 1000000
  else if String.eqb suffix "B" then Float64.of_int 1000000000
  else Float64.of_int 1.

Definition handle_suffix (text : string) : result Z :=
  let text_clean := PyStr.strip (PyStr.remove_char "," text) in
  match search_suffix text_clean with
  | Some (g1, g2) =>
      num ← Float64.of_str g1;
      let suffix := PyStr.upper (default EmptyString g2) in
      let multiplier := suffix_map_get suffix in
      Float64.to_int (Float64.mul num multiplier)
  | None =>
      match PyStr.int_of_str text_clean with
      | Some n => Ok n
      | None => Ok 0
      end
  end.


(** The inputs of the form
    [<number>[,]*<optional .decimal><optional K|M|B>]: [ip] holds the
    digits of the number and its thousands separators, [dec] the digits
    after the point when there is one, [sfx] the magnitude letter. *)
Definition dec_text (dec : option string) : string :=
  match dec with Some fp => String "." fp | None => EmptyString end.

Definition sfx_text (sfx : option ascii) : string :=
  match sfx with Some k => String k EmptyString | None => EmptyString end.

Definition count_text (ip : string) (dec : option string) (sfx : option ascii) : string :=
  ip +:+ dec_text dec +:+ sfx_text sfx.

Definition is_digit_or_comma (c : ascii) : bool :=
  PyStr.is_digit c || Ascii.eqb c ",".

Definition well_formed (ip : string) (dec : option string) (sfx : option ascii) : bool :=
  PyStr.forallb is_digit_or_comma ip
  && negb (PyStr.is_empty (PyStr.remove_char "," ip))
  && match dec with Some fp => PyStr.forallb PyStr.is_digit fp | None => true end
  && match sfx with Some k => is_KMB k | None => true end.

(** The multiplier that goes with a magnitude letter. *)
Definition scale (sfx : option ascii) : Z :=
  match sfx with
  | None => 1
  | Some k =>
      let u := PyStr.upper_char k in
      if Ascii.eqb u "K" then 1000
      else if Ascii.eqb u "M" then 1000000
      else if Ascii.eqb u "B" then 1000000000
      else 1
  end.

(** The digits of the number and the count of those after the point. *)
Definition count_digits (ip : string) (dec : option string) : string :=
  PyStr.remove_char "," ip +:+ default EmptyString dec.

Definition count_decimals (dec : option string) : nat :=
  String.length (default EmptyString dec).

(** ** [parse_engagement] *)

(** The dict with the keys "Reply", "Repost", "Like", "Views". *)
Record metrics : Type := {
  Reply : Z;
  Repost : Z;
  Like : Z;
  Views : Z;
}.

Definition zero_metrics : metrics :=
  {| Reply := 0; Repost := 0; Like := 0; Views := 0 |}.

Definition set_Reply (v : Z) (r : metrics) : metrics :=
  {| Reply := v; Repost := Repost r; Like := Like r; Views := Views r |}.
Definition set_Repost (v : Z) (r : metrics) : metrics :=
  {| Reply := Reply r; Repost := v; Like := Like r; Views := Views r |}.
Definition set_Like (v : Z) (r : metrics) : metrics :=
  {| Reply := Reply r; Repost := Repost r; Like := v; Views := Views r |}.
Definition set_Views (v : Z) (r : metrics) : metrics :=
  {| Reply := Reply r; Repost := Repost r; Like := Like r; Views := v |}.

(** [sum(result.values())] *)
Definition sum_values (r : metrics) : Z := Reply r + Repost r + Like r + Views r.

(** Every count is at least 0. *)
Definition nonneg (r : metrics) : Prop :=
  0 <= Reply r /\ 0 <= Repost r /\ 0 <= Like r /\ 0 <= Views r.

(** A match of [(\d+)\s+(\w+)] at the head of [s]: groups 1 and 2 and the
    text after the match.  Each run is taken whole: a shorter run of
    digits is followed by a digit, not by whitespace, and a shorter run
    of whitespace is followed by whitespace, not by a word character, so
    backtracking finds nothing more. *)
Definition match_pair_here (s : string) : option (string * string * string) :=
  let '(c_str, r1) := PyStr.span PyStr.is_digit s in
  if PyStr.is_empty c_str then None
  else
    let '(ws, r2) := PyStr.span PyStr.is_space r1 in
    if PyStr.is_empty ws then None
    else
      let '(w, r3) := PyStr.span PyStr.is_word r2 in
      if PyStr.is_empty w then None else Some (c_str, w, r3).

(** [pattern.findall]: matches from left to right, each search resuming
    where the previous match ended.  Every step consumes a character, so
    [fuel] above the length of [s] is never exhausted. *)
Fixpoint findall_pairs (fuel : nat) (s : string) : list (string * string) :=
  match fuel with
  | O => []
  | S fuel' =>
      match match_pair_here s with
      | Some (c_str, w, rest) => (c_str, w) :: findall_pairs fuel' rest
      | None =>
          match s with
          | EmptyString => []
          | String _ s' => findall_pairs fuel' s'
          end
      end
  end.

Definition findall (s : string) : list (string * string) :=
  findall_pairs (S (String.length s)) s.

(** The body of [for c_str, w in matches].  [int(c_str)] on a run of ASCII
    digits is its decimal value (the interpreter's optional cap on the
    length of a converted numeral is not modelled). *)
Definition update_metric (r : metrics) (m : string * string) : metrics :=
  let '(c_str, w) := m in
  let c_val := PyStr.digits_value 0 c_str in
  if PyStr.contains "reply" w || PyStr.contains "comment" w then set_Reply c_val r
  else if PyStr.contains "retweet" w || PyStr.contains "repost" w then set_Repost c_val r
  else if PyStr.contains "like" w then set_Like c_val r
  else if PyStr.contains "view" w then set_Views c_val r
  else r.

Definition scan_label (aria_text : string) (r : metrics) : metrics :=
  let aria_clean :=
    PyStr.lower (PyStr.remove_char "," (PyStr.remove_char "." aria_text)) in
  fold_left update_metric (findall aria_clean) r.

(** What the browser answers about one post while its metrics are read.
    A lookup is [Ok (Some x)] when the element exists and reads as [x],
    [Ok None] when [query_selector] returns [None], [Raise _] when the
    call raises. *)
Record engagement_dom : Type := {
  (** [div[role='group'][aria-label]] and its [aria-label] attribute
      ([None] inside: [get_attribute] returned [None]) *)
  group_label : result (option (option string));
  (** [a[aria-label*='views']] and its [inner_text()] *)
  views_link : result (option string);
  (** [div[data-testid='reply'] span] and its [inner_text()] *)
  reply_button : result (option string);
}.

(** [safe_get_text(selector, container, default)], given the browser's
    answer for that selector in that container. *)
Definition safe_get_text (answer : result (option string)) (dflt : string) : string :=
  match answer with
  | Ok (Some inner_text) => PyStr.strip inner_text
  | Ok None => dflt
  | Raise _ => dflt
  end.

(** Step 1: the grouped label. *)
Definition label_step (d : engagement_dom) (r : metrics) : result metrics :=
  engagement_block ← group_label d;
  match engagement_block with
  | Some attr => Ok (scan_label (default EmptyString attr) r)
  | None => Ok r
  end.

(** Step 2: the dedicated views link, when [Views] is still 0. *)
Definition views_step (d : engagement_dom) (r : metrics) : result metrics :=
  if Views r =? 0 then
    v ← handle_suffix (safe_get_text (views_link d) "0");
    Ok (set_Views v r)
  else Ok r.

(** Step 3: the reply button, when [Reply] is still 0. *)
Definition reply_step (d : engagement_dom) (r : metrics) : result metrics :=
  if Reply r =? 0 then
    r_val ← handle_suffix (safe_get_text (reply_button d) "0");
    if 0 <? r_val then Ok (set_Reply r_val r) else Ok r
  else Ok r.

(** [parse_engagement(tweet)].  [dom k] is what the browser answers during
    the [k]-th attempt; [depth] is the number of nested calls the
    interpreter still allows.  An exception inside the [try] ends the
    attempt with [result] as it stands (each step assigns only after its
    last call that can raise); at depth 0 the [RecursionError] is caught by
    an attempt whose [result] is all zero.  [wait_for_element] returns a
    [bool] that is dropped and catches its own exceptions, so it has no
    part in the value. *)
Fixpoint parse_engagement (depth : nat) (dom : nat -> engagement_dom)
    (attempt : nat) : metrics :=
  match depth with
  | O => zero_metrics
  | S depth' =>
      let d := dom attempt in
      let result0 := zero_metrics in
      match label_step d result0 with
      | Raise _ => result0
      | Ok result1 =>
          match views_step d result1 with
          | Raise _ => result1
          | Ok result2 =>
              match reply_step d result2 with
              | Raise _ => result2
              | Ok result3 =>
                  if sum_values result3 =? 0
                  then parse_engagement depth' dom (S attempt)
                  else result3
              end
          end
      end
  end.

(** ** [get_tweet_type] *)

(** The four return values: "Ретвит" (Repost in the specification),
    "Цитирование" (Quote), "Рекламный пост" (Promoted) and
    "Оригинальный пост" (Original). *)
Inductive PostType : Type :=
| Retweet
| Quote
| Promoted
| Original.

(** A text field of a record: a string read from the page, or the literal
    "Не указано" (not specified) of the source. *)
Inductive field : Type :=
| NotSpecified
| Text (s : string).

(** What the browser answers about one post root node. *)
Record tweet_dom : Type := {
  (** [tweet.get_attribute("data-tweet-id")] *)
  data_tweet_id : result (option string);
  (** [tweet.inner_html()] *)
  inner_html : result string;
  (** [div[data-testid='tweetText']] and its [inner_text()] *)
  tweet_text : result (option string);
  (** [time] and its [datetime] attribute *)
  time_datetime : result (option (option string));
  (** [div[data-testid='socialContext']:has-text('Reposted')] *)
  social_context : result (option unit);
  (** [div[data-testid='quoteTweet']] *)
  quote_tweet : result (option unit);
  (** [div[data-testid='placementTracking']] *)
  placement_tracking : result (option unit);
  engagement : nat -> engagement_dom;
}.

(** A lookup that returned an element, and one that returned [None]. *)
Definition found {A : Type} (q : result (option A)) : bool :=
  match q with Ok (Some _) => true | _ => false end.

Definition absent {A : Type} (q : result (option A)) : bool :=
  match q with Ok None => true | _ => false end.

Definition get_tweet_type (tweet : tweet_dom) : result PostType :=
  retweet_check ← social_context tweet;
  match retweet_check with
  | Some _ => Ok Retweet
  | None =>
      quote_check ← quote_tweet tweet;
      match quote_check with
      | Some _ => Ok Quote
      | None =>
          promoted_check ← placement_tracking tweet;
          match promoted_check with
          | Some _ => Ok Promoted
          | None => Ok Original
          end
      end
  end.

(** ** [parse_tweet] *)

(** The dict returned by [parse_tweet] when nothing raised. *)
Record tweet_data : Type := {
  id : string;
  post_type : PostType;
  text : field;
  date : option field;
  interactions : metrics;
}.

Section Builder.

(** The built-in [hash] on strings, fixed for the life of the process. *)
Variable hash : string -> Z.

(** Nested calls left to [parse_engagement] before [RecursionError]. *)
Variable depth : nat.

(** [str(hash(tweet.inner_html()))] *)
Definition fallback_id (tweet : tweet_dom) : result string :=
  html ← inner_html tweet;
  Ok (PyStr.str_of_int (hash html)).

(** [tweet.get_attribute("data-tweet-id") or str(hash(...))]: [None] and
    the empty string are both false. *)
Definition tweet_id_of (tweet : tweet_dom) : result string :=
  attr ← data_tweet_id tweet;
  match attr with
  | Some a => if PyStr.is_empty a then fallback_id tweet else Ok a
  | None => fallback_id tweet
  end.

(** The body of the [try] in [parse_tweet]. *)
Definition build_tweet (tweet : tweet_dom) : result tweet_data :=
  tweet_id ← tweet_id_of tweet;
  text_el ← tweet_text tweet;
  let tweet_text := match text_el with Some t => Text t | None => NotSpecified end in
  time_el ← time_datetime tweet;
  let tweet_date :=
    match time_el with
    | Some attr => Text <$> attr
    | None => Some NotSpecified
    end in
  tweet_type ← get_tweet_type tweet;
  let engagement := parse_engagement depth (engagement tweet) 0 in
  Ok {| id := tweet_id; post_type := tweet_type; text := tweet_text;
        date := tweet_date; interactions := engagement |}.

(** [parse_tweet(tweet)]; [None] is the empty dict of the [except]
    clause. *)
Definition parse_tweet (tweet : tweet_dom) : option tweet_data :=
  match build_tweet tweet with
  | Ok t_data => Some t_data
  | Raise _ => None
  end.

End Builder.

(** ** [load_and_parse_tweets] *)

(** An [ElementHandle], compared by identity in [t not in before]. *)
Definition node : Type := nat.

(** The attributes of [self] that the collector reads and writes. *)
Record scraper : Type := {
  processed_tweets : gset string;
  should_exit : bool;
}.

(** [__init__] *)
Definition init : scraper := {| processed_tweets := ∅; should_exit := false |}.

(** The SIGINT handler. *)
Definition exit_gracefully (self : scraper) : scraper :=
  {| processed_tweets := processed_tweets self; should_exit := true |}.

(** Calls issued to the page by the loop itself. *)
Inductive page_call : Type :=
| QueryTweets
| ScrollBy (scroll_step : Z)
| WaitForTimeout (scroll_delay : Z).

(** What the outside world does during one pass of the [while] loop:
    whether SIGINT arrived since the previous test of the flag, and the
    browser's answers to the calls of the pass, in program order. *)
Record iteration : Type := {
  sigint : bool;
  before : result (list node);
  scrolled : result unit;
  waited : result unit;
  after : result (list node);
  dom : node -> tweet_dom;
}.

(** The variables of one call of [load_and_parse_tweets]. *)
Record run : Type := {
  self : scraper;
  all_tweets : list tweet_data;
  calls : list page_call;
}.

(** Why the loop was left: the flag was set, [new_ones] was empty, or the
    [except] clause caught an exception. *)
Inductive stop : Type :=
| Cancelled
| Drained
| Failed.

Definition issue (c : page_call) (st : run) : run :=
  {| self := self st; all_tweets := all_tweets st; calls := calls st ++ [c] |}.

Definition deliver (it : iteration) (st : run) : run :=
  if sigint it
  then {| self := exit_gracefully (self st); all_tweets := all_tweets st;
          calls := calls st |}
  else st.

(** [[t for t in after if t not in before]] *)
Definition new_ones (before_ after_ : list node) : list node :=
  filter (λ t, t ∉ before_) after_.

(** The state of a run that began on the scraper [self0]: the ledger is
    the one [self0] had plus the ids of the records collected, no id was
    collected twice, and none was already in the ledger of [self0]. *)
Definition collected (self0 : scraper) (st : run) : Prop :=
  processed_tweets (self st)
  = processed_tweets self0 ∪ list_to_set (id <$> all_tweets st)
  /\ NoDup (id <$> all_tweets st)
  /\ (forall i : string, i ∈ id <$> all_tweets st -> i ∉ processed_tweets self0).

Section Collector.

Variable hash : string -> Z.
Variable depth : nat.

(** The test and the two updates in the body of [for tw in new_ones],
    for a record [t_data]. *)
Definition emit (t_data : option tweet_data) (st : run) : run :=
  match t_data with
  | Some t =>
      if negb (PyStr.is_empty (id t))
         && bool_decide (id t ∉ processed_tweets (self st))
      then {| self := {| processed_tweets := processed_tweets (self st) ∪ {[ id t ]};
                         should_exit := should_exit (self st) |};
              all_tweets := all_tweets st ++ [t];
              calls := calls st |}
      else st
  | None => st
  end.

(** [for tw in new_ones: ...] *)
Definition process (dom_ : node -> tweet_dom) (l : list node) (st : run) : run :=
  fold_left (λ st tw, emit (parse_tweet hash depth (dom_ tw)) st) l st.

(** One pass of [while not self.should_exit]: the new state, and the
    reason when the loop is left in this pass. *)
Definition iterate (it : iteration) (st : run) : run * option stop :=
  let st := deliver it st in
  if should_exit (self st) then (st, Some Cancelled)
  else
    let st := issue QueryTweets st in
    match before it with
    | Raise _ => (st, Some Failed)
    | Ok before_ =>
        let st := issue (ScrollBy 800) st in
        match scrolled it with
        | Raise _ => (st, Some Failed)
        | Ok _ =>
            let st := issue (WaitForTimeout 2000) st in
            match waited it with
            | Raise _ => (st, Some Failed)
            | Ok _ =>
                let st := issue QueryTweets st in
                match after it with
                | Raise _ => (st, Some Failed)
                | Ok after_ =>
                    let new := new_ones before_ after_ in
                    let st := process (dom it) new st in
                    match new with
                    | [] => (st, Some Drained)
                    | _ :: _ => (st, None)
                    end
                end
            end
        end
    end.

(** The loop against a finite prefix of the world's behaviour;
    [None] when the loop is still running at the end of the prefix. *)
Fixpoint loop (env : list iteration) (st : run) : run * option stop :=
  match env with
  | [] => (st, None)
  | it :: env' =>
      match iterate it st with
      | (st', None) => loop env' st'
      | stopped => stopped
      end
  end.

(** [load_and_parse_tweets]: [all_tweets] starts empty, [self] is the
    object the method is called on. *)
Definition load_and_parse_tweets (env : list iteration) (self_ : scraper)
    : run * option stop :=
  loop env {| self := self_; all_tweets := []; calls := [] |}.

End Collector.

(** ** Sample pages *)

Module Sample.

Definition label_only (lbl : string) : engagement_dom :=
  {| group_label := Ok (Some (Some lbl));
     views_link := Ok None;
     reply_button := Ok None |}.

(** A post without [data-tweet-id] whose markup is [html]. *)
Definition anonymous (html : string) : tweet_dom :=
  {| data_tweet_id := Ok None;
     inner_html := Ok html;
     tweet_text := Ok (Some "hello");
     time_datetime := Ok None;
     social_context := Ok None;
     quote_tweet := Ok None;
     placement_tracking := Ok None;
     engagement := fun _ => label_only "3 likes" |}.

(** A post that carries the identifier [i]. *)
Definition identified (i : string) : tweet_dom :=
  {| data_tweet_id := Ok (Some i);
     inner_html := Ok "<div></div>";
     tweet_text := Ok (Some "hello");
     time_datetime := Ok (Some (Some "2024-01-01T00:00:00.000Z"));
     social_context := Ok None;
     quote_tweet := Ok (Some tt);
     placement_tracking := Ok None;
     engagement := fun _ => label_only "1 reply 2 reposts" |}.

Definition hash (s : string) : Z := Z.of_nat (String.length s) - 7.

Definition page (n : node) : tweet_dom :=
  match n with
  | O => identified "a"
  | 1%nat => identified "b"
  | 2%nat => anonymous "<p>same</p>"
  | _ => anonymous "<p>same</p>"
  end.

(** A pass in which the nodes of [fresh] appear after the scroll. *)
Definition pass (old fresh : list node) : iteration :=
  {| sigint := false;
     before := Ok old;
     scrolled := Ok tt;
     waited := Ok tt;
     after := Ok (old ++ fresh);
     dom := page |}.

Definition interrupted : iteration :=
  {| sigint := true;
     before := Ok [];
     scrolled := Ok tt;
     waited := Ok tt;
     after := Ok [0%nat];
     dom := page |}.

(** Two posts appear, then nothing new. *)
Definition feed : list iteration :=
  [pass [] [0%nat; 1%nat]; pass [0%nat; 1%nat] []].

(** The variables of a call at its start, on a new scraper. *)
Definition start : run := {| self := init; all_tweets := []; calls := [] |}.

End Sample.

(** ** [wait_for_element] *)

(** [wait_for_element(selector, timeout)], given what
    [page.wait_for_selector] did: it returned, or it raised (a timeout
    included). *)
Definition wait_for_element (answer : result unit) : bool :=
  match answer with
  | Ok _ => true
  | Raise _ => false
  end.

(** ** [parse_followers_and_tweets] *)

(** [[\d.,]] *)
Definition is_count_char (c : ascii) : bool :=
  PyStr.is_digit c || Ascii.eqb c "." || Ascii.eqb c ",".

(** A literal of lower-case letters matched under [re.IGNORECASE] at the
    head of [s]. *)
Fixpoint prefix_ignorecase (literal s : string) : bool :=
  match literal, s with
  | EmptyString, _ => true
  | String p literal', String c s' =>
      Ascii.eqb (PyStr.lower_char c) p && prefix_ignorecase literal' s'
  | String _ _, EmptyString => false
  end.

(** A match of [([\d.,]+)\s*posts] that starts at the head of [s]; returns
    group 1.  Only the whole run can match: a shorter run is followed by
    one of its own characters, which is neither whitespace nor a "p",
    and less whitespace is followed by whitespace. *)
Definition match_posts_here (s : string) : option string :=
  let '(g1, r) := PyStr.span is_count_char s in
  if PyStr.is_empty g1 then None
  else
    let '(_, r') := PyStr.span PyStr.is_space r in
    if prefix_ignorecase "posts" r' then Some g1 else None.

(** [re.search(r"([\d.,]+)\s*posts", s, re.IGNORECASE)] *)
Fixpoint search_posts (s : string) : option string :=
  match match_posts_here s with
  | Some g1 => Some g1
  | None =>
      match s with
      | EmptyString => None
      | String _ s' => search_posts s'
      end
  end.

(** What the page answers while the two counts of the profile are read:
    for each selector, what [wait_for_selector] did and the lookup made
    by [safe_get_text]. *)
Record counts_dom : Type := {
  followers_wait : result unit;
  followers_text : result (option string);
  tweets_wait : result unit;
  tweets_text : result (option string);
}.

(** The dict with the keys "Подписчики" (followers) and
    "Количество твитов" (number of tweets). *)
Record counts : Type := {
  followers : Z;
  tweet_count : Z;
}.

Definition followers_step (d : counts_dom) (data : counts) : result counts :=
  if wait_for_element (followers_wait d) then
    v ← handle_suffix (safe_get_text (followers_text d) "0");
    Ok {| followers := v; tweet_count := tweet_count data |}
  else Ok data.

Definition tweets_step (d : counts_dom) (data : counts) : result counts :=
  if wait_for_element (tweets_wait d) then
    let t_text := safe_get_text (tweets_text d) "0" in
    match search_posts t_text with
    | Some g1 =>
        v ← handle_suffix g1;
        Ok {| followers := followers data; tweet_count := v |}
    | None => Ok data
    end
  else Ok data.

(** [parse_followers_and_tweets()]: an exception inside the [try] ends it
    with [data] as it stands. *)
Definition parse_followers_and_tweets (d : counts_dom) : counts :=
  let data0 := {| followers := 0; tweet_count := 0 |} in
  match followers_step d data0 with
  | Raise _ => data0
  | Ok data1 =>
      match tweets_step d data1 with
      | Raise _ => data1
      | Ok data2 => data2
      end
  end.

(** ** [connect_to_browser] *)

(** A page of the browser, by identity. *)
Definition page : Type := nat.

(** The attributes [browser] (its contexts, each with its pages),
    [context] and [page] of the scraper; [None] as [__init__] sets
    them. *)
Record connection : Type := {
  browser : option (list (list page));
  context : option (list page);
  current_page : option page;
}.

(** [connect_to_browser()], given what connecting over CDP gave: the
    contexts of the browser, or an exception. *)
Definition connect_to_browser (cdp : result (list (list page))) : bool * connection :=
  match cdp with
  | Raise _ => (false, {| browser := None; context := None; current_page := None |})
  | Ok contexts =>
      match contexts with
      | [] =>
          (false, {| browser := Some contexts; context := None;
                     current_page := None |})
      | ctx :: _ =>
          match last ctx with
          | None =>
              (false, {| browser := Some contexts; context := Some ctx;
                         current_page := None |})
          | Some p =>
              (true, {| browser := Some contexts; context := Some ctx;
                        current_page := Some p |})
          end
      end
  end.

(** ** [scrape_profile] *)

(** [s.rstrip(c)] for a one-character [c]. *)
Fixpoint rstrip_char (c : ascii) (s : string) : string :=
  match s with
  | EmptyString => EmptyString
  | String a s' =>
      match rstrip_char c s' with
      | EmptyString => if Ascii.eqb a c then EmptyString else String a EmptyString
      | t => String a t
      end
  end.

(** [s.split(c)] for a one-character [c]: never empty. *)
Fixpoint split_char (c : ascii) (s : string) : list string :=
  match s with
  | EmptyString => [EmptyString]
  | String a s' =>
      if Ascii.eqb a c then EmptyString :: split_char c s'
      else
        match split_char c s' with
        | h :: t => String a h :: t
        | [] => [String a EmptyString]
        end
  end.

(** ["@" + url.rstrip("/").split("/")[-1]] *)
Definition handle_of_url (url : string) : string :=
  String "@" (default EmptyString (last (split_char "/" (rstrip_char "/" url)))).

(** What one page answers during [scrape_profile], in program order. *)
Record page_world : Type := {
  (** [div[data-testid='UserName'] span] and its [inner_text()] *)
  user_name : result (option string);
  (** [page.title()] *)
  title : result string;
  (** [page.url] *)
  url : string;
  profile_counts : counts_dom;
  (** [wait_for_selector("article[data-testid='tweet']")] *)
  first_tweet : result unit;
  (** the passes of the scroll loop *)
  scrolling : list iteration;
}.

(** The world of one call of [scrape_profile]: the browser found over
    CDP, its pages, and what writing the JSON file and closing the
    browser do. *)
Record world : Type := {
  cdp : result (list (list page));
  on_page : page -> page_world;
  save : result unit;
  close : result unit;
}.

(** The dict [profile_info]. *)
Record profile : Type := {
  account_name : field;
  handle : field;
  followers_count : Z;
  posts_count : Z;
  posts : list tweet_data;
}.

(** What the call did to the outside: the profile written to the JSON
    file (when writing succeeded), and [browser.close()] being called. *)
Inductive effect : Type :=
| WriteJson (p : profile)
| CloseBrowser.

(** How a call of [scrape_profile] ends: it returns a dict ([None] for the
    empty dict), an exception leaves it, or the scroll loop is still
    running at the end of the prefix of passes given. *)
Inductive outcome : Type :=
| Returned (p : option profile)
| Propagated (e : exn)
| Collecting.

(** The account name: the text of the UserName element, else the title
    of the page, else the literal "Не указано".  (The text of an element
    is never that literal here, so the test [user_name == "Не указано"]
    holds exactly when the lookup gave the default.) *)
Definition account_name_of (pw : page_world) : result field :=
  match user_name pw with
  | Ok (Some inner_text) => Ok (Text (PyStr.strip inner_text))
  | _ =>
      t ← title pw;
      Ok (if PyStr.is_empty t then NotSpecified else Text t)
  end.

(** The [finally] clause: [browser] is set, so [close()] is called; an
    exception of [close()] replaces the pending return. *)
Definition finally_close (w : world) (r : outcome) (effects : list effect)
    : outcome * list effect :=
  match close w with
  | Ok _ => (r, effects ++ [CloseBrowser])
  | Raise e => (Propagated e, effects ++ [CloseBrowser])
  end.

Section Profile.

Variable hash : string -> Z.
Variable depth : nat.

(** [scrape_profile()]: how the call ends, what it did to the outside,
    and the scraper as the call leaves it. *)
Definition scrape_profile (w : world) (self_ : scraper)
    : outcome * list effect * scraper :=
  match connect_to_browser (cdp w) with
  | (true, {| current_page := Some p |}) =>
      let pw := on_page w p in
      match account_name_of pw with
      | Raise _ => (finally_close w (Returned None) [], self_)
      | Ok name =>
          let h :=
            if PyStr.is_empty (url pw) then NotSpecified
            else Text (handle_of_url (url pw)) in
          let data := parse_followers_and_tweets (profile_counts pw) in
          let info tweets_list :=
            {| account_name := name; handle := h;
               followers_count := followers data;
               posts_count := tweet_count data;
               posts := tweets_list |} in
          let finish tweets_list self' :=
            match save w with
            | Raise _ => (finally_close w (Returned None) [], self')
            | Ok _ =>
                (finally_close w (Returned (Some (info tweets_list)))
                   [WriteJson (info tweets_list)], self')
            end in
          if wait_for_element (first_tweet pw) then
            match load_and_parse_tweets hash depth (scrolling pw) self_ with
            | (st, Some _) => finish (all_tweets st) (self st)
            | (st, None) => (Collecting, [], self st)
            end
          else finish [] self_
      end
  | _ => (Returned None, [], self_)
  end.

End Profile.

(** ** Notions used to state the properties *)

(** One pass through the body of the [try] of [parse_engagement]: the
    record when the body is left, and whether it was left at its end
    rather than by an exception. *)
Definition attempt (d : engagement_dom) : metrics * bool :=
  match label_step d zero_metrics with
  | Raise _ => (zero_metrics, false)
  | Ok result1 =>
      match views_step d result1 with
      | Raise _ => (result1, false)
      | Ok result2 =>
          match reply_step d result2 with
          | Raise _ => (result2, false)
          | Ok result3 => (result3, true)
          end
      end
  end.

(** An attempt that ends normally with every count at 0: the one case in
    which [parse_engagement] calls itself. *)
Definition quiet (d : engagement_dom) : bool :=
  snd (attempt d) && (sum_values (fst (attempt d)) =? 0).

(** The page calls of a pass of the scroll loop that runs to its end. *)
Definition pass_calls : list page_call :=
  [QueryTweets; ScrollBy 800; WaitForTimeout 2000; QueryTweets].

(** A call that returned. *)
Definition answered {A : Type} (r : result A) : bool :=
  match r with Ok _ => true | Raise _ => false end.

(** Whether [parse_tweet] has to read the inner markup: the identifier
    attribute is missing or empty. *)
Definition needs_html (tweet : tweet_dom) : bool :=
  match data_tweet_id tweet with
  | Ok (Some a) => PyStr.is_empty a
  | Ok None => true
  | Raise _ => false
  end.

Definition is_dot (c : ascii) : bool := Ascii.eqb c ".".

Definition is_nan (x : spec_float) : bool :=
  match x with S754_nan => true | _ => false end.

(** ** More sample pages *)

Module Demo.

Definition counts_page (f t : string) : counts_dom :=
  {| followers_wait := Ok tt; followers_text := Ok (Some f);
     tweets_wait := Ok tt; tweets_text := Ok (Some t) |}.

Definition alice : page_world :=
  {| user_name := Ok (Some " Alice ");
     title := Ok "Alice (@alice) / X";
     url := "https://x.com/alice/";
     profile_counts := counts_page "1,234" "56 posts";
     first_tweet := Ok tt;
     scrolling := Sample.feed |}.

(** [n] zeros; [huge_number] is a one followed by 400 of them. *)
Fixpoint zeros (n : nat) : string :=
  match n with
  | O => EmptyString
  | S n' => String "0" (zeros n')
  end.

Definition huge_number : string := String "1" (zeros 400).

Definition session : world :=
  {| cdp := Ok [[3%nat; 5%nat]; [7%nat]];
     on_page := fun _ => alice;
     save := Ok tt;
     close := Ok tt |}.

End Demo.

(** * Properties *)

(** ** Strings *)

Section StringFacts.

Import PyStr.

#[local] Arguments String.append !s1 s2 : simpl nomatch.

Lemma append_nil_r (s : string) : s +:+ EmptyString = s.
Proof. induction s as [|c s IH]; simpl; [reflexivity | now rewrite IH]. Qed.

Lemma append_assoc (a b c : string) : (a +:+ b) +:+ c = a +:+ (b +:+ c).
Proof. induction a as [|x a IH]; simpl; [reflexivity | now rewrite IH]. Qed.

Lemma forallb_app (p : ascii -> bool) (a b : string) :
  forallb p (a +:+ b) = forallb p a && forallb p b.
Proof.
  induction a as [|x a IH]; simpl; [reflexivity|].
  rewrite IH. now rewrite andb_assoc.
Qed.

Lemma forallb_impl (p q : ascii -> bool) (s : string) :
  (forall c, p c = true -> q c = true) ->
  forallb p s = true -> forallb q s = true.
Proof.
  intros Hpq. induction s as [|c s IH]; simpl; [reflexivity|].
  intros [Hc Hs]%andb_true_iff. rewrite (Hpq c Hc). simpl. now apply IH.
Qed.

Lemma span_app (p : ascii -> bool) (a b : string) :
  forallb p a = true -> stops p b = true -> span p (a +:+ b) = (a, b).
Proof.
  intros Ha Hb. induction a as [|x a IH]; simpl in *.
  - destruct b as [|c b]; simpl in *; [reflexivity|].
    apply negb_true_iff in Hb. now rewrite Hb.
  - apply andb_true_iff in Ha as [Hx Ha]. rewrite Hx, (IH Ha). reflexivity.
Qed.

Lemma span_length (p : ascii -> bool) (s a b : string) :
  span p s = (a, b) ->
  String.length s = (String.length a + String.length b)%nat.
Proof.
  revert a b. induction s as [|c s IH]; simpl; intros a b.
  - intros [= <- <-]. reflexivity.
  - destruct (p c).
    + destruct (span p s) as [a' b'] eqn:E. intros [= <- <-].
      simpl. now rewrite (IH a' b' eq_refl).
    + intros [= <- <-]. reflexivity.
Qed.


Lemma remove_char_app (c : ascii) (a b : string) :
  remove_char c (a +:+ b) = remove_char c a +:+ remove_char c b.
Proof.
  induction a as [|x a IH]; simpl; [reflexivity|].
  destruct (Ascii.eqb x c); simpl; now rewrite IH.
Qed.

Lemma remove_char_absent (c : ascii) (s : string) :
  forallb (fun a => negb (Ascii.eqb a c)) s = true -> remove_char c s = s.
Proof.
  induction s as [|x s IH]; simpl; [reflexivity|].
  intros [Hx Hs]%andb_true_iff. apply negb_true_iff in Hx.
  rewrite Hx. now rewrite IH.
Qed.

Lemma remove_char_forallb (p : ascii -> bool) (c : ascii) (s : string) :
  forallb p s = true -> forallb p (remove_char c s) = true.
Proof.
  induction s as [|x s IH]; simpl; [reflexivity|].
  intros [Hx Hs]%andb_true_iff.
  destruct (Ascii.eqb x c); simpl; [now apply IH|].
  rewrite Hx. now apply IH.
Qed.

Lemma lstrip_forallb (p : ascii -> bool) (s : string) :
  forallb p s = true -> forallb p (lstrip s) = true.
Proof.
  induction s as [|x s IH]; simpl; [reflexivity|].
  intros H. destruct (is_space x); [|exact H].
  apply andb_true_iff in H as [_ Hs]. now apply IH.
Qed.

Lemma rstrip_forallb (p : ascii -> bool) (s : string) :
  forallb p s = true -> forallb p (rstrip s) = true.
Proof.
  induction s as [|x s IH]; simpl; [reflexivity|].
  intros [Hx Hs]%andb_true_iff. specialize (IH Hs).
  destruct (rstrip s) as [|y t].
  - destruct (is_space x); simpl; [reflexivity | now rewrite Hx].
  - simpl in *. now rewrite Hx, IH.
Qed.

Lemma strip_forallb (p : ascii -> bool) (s : string) :
  forallb p s = true -> forallb p (strip s) = true.
Proof. intros H. unfold strip. now apply lstrip_forallb, rstrip_forallb. Qed.

Lemma rstrip_no_space (s : string) :
  forallb (fun c => negb (is_space c)) s = true -> rstrip s = s.
Proof.
  induction s as [|x s IH]; simpl; [reflexivity|].
  intros [Hx Hs]%andb_true_iff. apply negb_true_iff in Hx.
  rewrite (IH Hs). destruct s; [now rewrite Hx | reflexivity].
Qed.

Lemma strip_no_space (s : string) :
  forallb (fun c => negb (is_space c)) s = true -> strip s = s.
Proof.
  intros H. unfold strip. rewrite (rstrip_no_space s H).
  destruct s as [|x s]; simpl in *; [reflexivity|].
  apply andb_true_iff in H as [Hx _]. apply negb_true_iff in Hx.
  now rewrite Hx.
Qed.

Lemma digits_value_app (acc : Z) (a b : string) :
  digits_value acc (a +:+ b) = digits_value (digits_value acc a) b.
Proof. revert acc. induction a as [|x a IH]; simpl; intros; [reflexivity | apply IH]. Qed.

Lemma digit_value_nonneg (c : ascii) : 0 <= digit_value c.
Proof. unfold digit_value. lia. Qed.

Lemma digits_value_nonneg (s : string) (acc : Z) :
  0 <= acc -> 0 <= digits_value acc s.
Proof.
  revert acc. induction s as [|c s IH]; simpl; intros acc H; [exact H|].
  apply IH. pose proof (digit_value_nonneg c). lia.
Qed.

End StringFacts.

(** ** The numeric suffix normalizer *)

Section Normalizer.

Import PyStr.

#[local] Arguments String.append !s1 s2 : simpl nomatch.

Ltac by_cases c :=
  destruct c as [[] [] [] [] [] [] [] []]; vm_compute; try reflexivity;
  try discriminate; intuition congruence.

Lemma digit_is_num_char (c : ascii) : is_digit c = true -> is_num_char c = true.
Proof. unfold is_num_char. now intros ->. Qed.

Lemma num_char_not_space (c : ascii) : is_num_char c = true -> is_space c = false.
Proof. by_cases c. Qed.

Lemma num_char_not_comma (c : ascii) : is_num_char c = true -> Ascii.eqb c "," = false.
Proof. by_cases c. Qed.

Lemma KMB_not_num_char (k : ascii) : is_KMB k = true -> is_num_char k = false.
Proof. by_cases k. Qed.

Lemma KMB_not_space (k : ascii) : is_KMB k = true -> is_space k = false.
Proof. by_cases k. Qed.

Lemma KMB_not_comma (k : ascii) : is_KMB k = true -> Ascii.eqb k "," = false.
Proof. by_cases k. Qed.


Lemma suffix_map_scale (k : ascii) :
  suffix_map_get (upper (String k EmptyString)) = Float64.of_int (scale (Some k)).
Proof. by_cases k. Qed.

Lemma remove_comma_digits (ip : string) :
  forallb is_digit_or_comma ip = true ->
  forallb is_digit (remove_char "," ip) = true.
Proof.
  induction ip as [|c ip IH]; simpl; [reflexivity|].
  intros [Hc Hs]%andb_true_iff.
  destruct (Ascii.eqb c ",") eqn:E; [now apply IH|].
  simpl. unfold is_digit_or_comma in Hc. rewrite E, orb_false_r in Hc.
  rewrite Hc. now apply IH.
Qed.

Lemma dec_text_num (dec : option string) :
  match dec with Some fp => forallb is_digit fp | None => true end = true ->
  forallb is_num_char (dec_text dec) = true.
Proof.
  destruct dec as [fp|]; simpl; [|reflexivity].
  intros H. apply (forallb_impl _ _ _ digit_is_num_char H).
Qed.

Lemma sfx_text_stops (sfx : option ascii) :
  match sfx with Some k => is_KMB k | None => true end = true ->
  stops is_num_char (sfx_text sfx) = true /\ stops is_space (sfx_text sfx) = true.
Proof.
  destruct sfx as [k|]; simpl; [|now split].
  intros H. now rewrite (KMB_not_num_char k H), (KMB_not_space k H).
Qed.

(** The cleaned text of a well-formed count is the count without its
    commas. *)
Lemma clean_count (ip : string) (dec : option string) (sfx : option ascii) :
  well_formed ip dec sfx = true ->
  strip (remove_char "," (count_text ip dec sfx))
  = (remove_char "," ip +:+ dec_text dec) +:+ sfx_text sfx.
Proof.
  unfold well_formed, count_text.
  intros [[[Hip Hne]%andb_true_iff Hdec]%andb_true_iff Hsfx]%andb_true_iff.
  pose proof (remove_comma_digits ip Hip) as Hd.
  pose proof (dec_text_num dec Hdec) as Hdn.
  rewrite !remove_char_app.
  rewrite (remove_char_absent "," (dec_text dec)).
  2:{ apply (forallb_impl is_num_char); [|exact Hdn].
      intros c Hc. now rewrite (num_char_not_comma c Hc). }
  rewrite (remove_char_absent "," (sfx_text sfx)).
  2:{ destruct sfx as [k|]; simpl; [|reflexivity].
      now rewrite (KMB_not_comma k Hsfx). }
  rewrite <- append_assoc. apply strip_no_space.
  rewrite !forallb_app. repeat (apply andb_true_iff; split).
  - apply (forallb_impl is_digit); [|exact Hd].
    intros c Hc. now rewrite (num_char_not_space c (digit_is_num_char c Hc)).
  - apply (forallb_impl is_num_char); [|exact Hdn].
    intros c Hc. now rewrite (num_char_not_space c Hc).
  - destruct sfx as [k|]; simpl; [|reflexivity].
    now rewrite (KMB_not_space k Hsfx).
Qed.

Lemma search_suffix_here (s : string) (m : string * option string) :
  match_suffix_here s = Some m -> search_suffix s = Some m.
Proof. intros H. destruct s; cbn [search_suffix]; now rewrite H. Qed.

Lemma search_count (g1 : string) (sfx : option ascii) :
  forallb is_num_char g1 = true -> is_empty g1 = false ->
  match sfx with Some k => is_KMB k | None => true end = true ->
  search_suffix (g1 +:+ sfx_text sfx)
  = Some (g1, (fun k => String k EmptyString) <$> sfx).
Proof.
  intros Hg Hne Hsfx. destruct (sfx_text_stops sfx Hsfx) as [Hs1 Hs2].
  apply search_suffix_here.
  unfold match_suffix_here. rewrite (span_app _ _ _ Hg Hs1), Hne.
  destruct sfx as [k|]; simpl in *; [|reflexivity].
  rewrite (KMB_not_space k Hsfx), Hsfx. reflexivity.
Qed.

Lemma float_of_count (d : string) (dec : option string) :
  forallb is_digit d = true -> is_empty d = false ->
  match dec with Some fp => forallb is_digit fp | None => true end = true ->
  Float64.of_str (d +:+ dec_text dec)
  = Ok (Float64.of_decimal (digits_value 0 (d +:+ default EmptyString dec))
                           (String.length (default EmptyString dec))).
Proof.
  intros Hd Hne Hdec. unfold Float64.of_str.
  rewrite (span_app is_digit d (dec_text dec) Hd).
  2:{ destruct dec; reflexivity. }
  destruct dec as [fp|]; simpl.
  - rewrite Hdec, Hne. simpl. now rewrite digits_value_app.
  - rewrite Hne. now rewrite append_nil_r.
Qed.

Lemma is_empty_app (a b : string) : is_empty a = false -> is_empty (a +:+ b) = false.
Proof. destruct a; [discriminate | reflexivity]. Qed.

Lemma handle_suffix_count (ip : string) (dec : option string) (sfx : option ascii) :
  well_formed ip dec sfx = true ->
  handle_suffix (count_text ip dec sfx)
  = Float64.to_int
      (Float64.mul
         (Float64.of_decimal (digits_value 0 (count_digits ip dec)) (count_decimals dec))
         (Float64.of_int (scale sfx))).
Proof.
  intros Hwf. unfold handle_suffix. rewrite (clean_count _ _ _ Hwf).
  unfold well_formed in Hwf.
  apply andb_true_iff in Hwf as [[[Hip Hne]%andb_true_iff Hdec]%andb_true_iff Hsfx].
  apply negb_true_iff in Hne.
  pose proof (remove_comma_digits ip Hip) as Hd.
  rewrite search_count; [| |now apply is_empty_app|exact Hsfx].
  2:{ rewrite forallb_app, (dec_text_num dec Hdec), andb_true_r.
      apply (forallb_impl _ _ _ digit_is_num_char Hd). }
  rewrite (float_of_count _ _ Hd Hne Hdec). simpl.
  unfold count_digits, count_decimals.
  destruct sfx as [k|]; simpl; [|reflexivity].
  now rewrite suffix_map_scale.
Qed.


Lemma int_unsigned_none (s : string) :
  forallb (fun c => negb (is_digit c)) s = true -> int_unsigned s = None.
Proof.
  destruct s as [|c s]; simpl; [reflexivity|].
  intros [Hc _]%andb_true_iff. apply negb_true_iff in Hc. now rewrite Hc.
Qed.

Lemma int_of_str_none (s : string) :
  forallb (fun c => negb (is_digit c)) s = true -> int_of_str s = None.
Proof.
  intros H. unfold int_of_str. apply strip_forallb in H.
  destruct (strip s) as [|c t] eqn:E; [reflexivity|].
  pose proof H as H'. simpl in H'. apply andb_true_iff in H' as [_ Ht].
  rewrite (int_unsigned_none t Ht), (int_unsigned_none (String c t) H).
  now repeat destruct (Ascii.eqb _ _).
Qed.


(** *** Sign of the result *)

Lemma round_aux_sign (m e : Z) (l : location) :
  Float64.negative (binary_round_aux Float64.prec Float64.emax false m e l) = false.
Proof.
  unfold binary_round_aux.
  destruct (shr_fexp _ _ m e l) as [mrs' e'].
  destruct (shr_fexp _ _ _ e' loc_Exact) as [mrs'' e''].
  destruct (shr_m mrs''); [reflexivity| |reflexivity].
  now destruct (Z.leb _ _).
Qed.

Lemma of_decimal_sign (n : Z) (k : nat) :
  0 <= n -> Float64.negative (Float64.of_decimal n k) = false.
Proof.
  intros Hn. unfold Float64.of_decimal, Float64.exact.
  assert (0 < 10 ^ Z.of_nat k) as Hd by (apply Z.pow_pos_nonneg; lia).
  destruct (10 ^ Z.of_nat k) as [|d|d]; try lia.
  destruct n as [|p|p]; try lia; [reflexivity|].
  cbn [SFdiv].
  destruct (SFdiv_core_binary _ _ _ _ _ _) as [[mz ez] lz].
  apply round_aux_sign.
Qed.

Lemma mul_sign (x y : spec_float) :
  Float64.negative x = false -> Float64.negative y = false ->
  Float64.negative (Float64.mul x y) = false.
Proof.
  destruct x as [sx|sx| |sx mx ex], y as [sy|sy| |sy my ey];
    simpl; intros Hx Hy; try reflexivity.
  subst. apply round_aux_sign.
Qed.

Lemma to_int_nonneg (x : spec_float) (z : Z) :
  Float64.negative x = false -> Float64.to_int x = Ok z -> 0 <= z.
Proof.
  destruct x as [s|s| |s m e]; simpl; intros Hs [= <-]; [lia|].
  subst. simpl. apply Z.shiftl_nonneg. lia.
Qed.

Lemma of_str_sign (g : string) (num : spec_float) :
  Float64.of_str g = Ok num -> Float64.negative num = false.
Proof.
  unfold Float64.of_str. destruct (span is_digit g) as [ip r].
  destruct r as [|c fp].
  - destruct (is_empty ip); intros [= <-].
    apply of_decimal_sign, digits_value_nonneg. lia.
  - destruct (_ && _); intros [= <-].
    apply of_decimal_sign, digits_value_nonneg, digits_value_nonneg. lia.
Qed.

Lemma suffix_map_sign (suffix : string) :
  Float64.negative (suffix_map_get suffix) = false.
Proof.
  unfold suffix_map_get. repeat destruct (String.eqb _ _); reflexivity.
Qed.

Lemma search_suffix_none_inv (s : string) :
  search_suffix s = None -> forallb (fun c => negb (is_num_char c)) s = true.
Proof.
  induction s as [|c s IH]; [reflexivity|].
  cbn [search_suffix forallb].
  destruct (match_suffix_here (String c s)) as [m|] eqn:E; [discriminate|].
  intros H. rewrite (IH H), andb_true_r.
  unfold match_suffix_here in E. simpl in E.
  destruct (is_num_char c); [|reflexivity].
  destruct (span is_num_char s) as [a b]. simpl in E.
  destruct (span is_space b) as [a' b'].
  destruct b' as [|k b']; [discriminate|]. now destruct (is_KMB k).
Qed.

(** Whatever [handle_suffix] returns is not negative. *)
Lemma handle_suffix_nonneg (text : string) (z : Z) :
  handle_suffix text = Ok z -> 0 <= z.
Proof.
  unfold handle_suffix.
  destruct (search_suffix _) as [[g1 g2]|] eqn:E.
  - destruct (Float64.of_str g1) as [num|e] eqn:F; simpl; [|discriminate].
    apply to_int_nonneg, mul_sign; [apply (of_str_sign _ _ F)|apply suffix_map_sign].
  - apply search_suffix_none_inv in E.
    rewrite int_of_str_none; [intros [= <-]; lia|].
    apply (forallb_impl (fun c => negb (is_num_char c))); [|exact E].
    intros c Hn. apply negb_true_iff in Hn. apply negb_true_iff.
    destruct (is_digit c) eqn:D; [|reflexivity].
    now rewrite (digit_is_num_char c D) in Hn.
Qed.




(** C2: [handle_suffix] is not total.  Group 1 of the pattern accepts a
    lone dot and several dots, [float] rejects both, and the
    [ValueError] leaves the function: only [int(text_clean)] is
    guarded. *)
Theorem handle_suffix_raises :
  handle_suffix "." = Raise ValueError
  /\ handle_suffix "1.2.3" = Raise ValueError.
Proof. split; vm_compute; reflexivity. Qed.

End Normalizer.

(** ** The engagement resolver *)

Section Engagement.

Import PyStr.

Lemma match_pair_here_shorter (s c w rest : string) :
  match_pair_here s = Some (c, w, rest) ->
  (String.length rest < String.length s)%nat.
Proof.
  unfold match_pair_here.
  destruct (span is_digit s) as [c' r1] eqn:E1.
  destruct (is_empty c') eqn:N1; [discriminate|].
  destruct (span is_space r1) as [ws r2] eqn:E2.
  destruct (is_empty ws); [discriminate|].
  destruct (span is_word r2) as [w' r3] eqn:E3.
  destruct (is_empty w'); [discriminate|].
  intros [= <- <- <-].
  apply span_length in E1, E2, E3.
  destruct c'; [discriminate|]. simpl in *. lia.
Qed.

(** More fuel than the text is long never changes the matches: the fuel
    of [findall] is enough. *)
Lemma findall_pairs_fuel (f1 f2 : nat) (s : string) :
  (String.length s < f1)%nat -> (String.length s < f2)%nat ->
  findall_pairs f1 s = findall_pairs f2 s.
Proof.
  revert f2 s. induction f1 as [|f1 IH]; intros f2 s H1 H2; [lia|].
  destruct f2 as [|f2]; [lia|]. cbn [findall_pairs].
  destruct (match_pair_here s) as [[[c w] rest]|] eqn:E.
  - f_equal. apply match_pair_here_shorter in E. apply IH; lia.
  - destruct s as [|a s]; [reflexivity|]. simpl in *. apply IH; lia.
Qed.

Lemma zero_nonneg : nonneg zero_metrics.
Proof. unfold nonneg. simpl. lia. Qed.

Lemma update_metric_nonneg (r : metrics) (m : string * string) :
  nonneg r -> nonneg (update_metric r m).
Proof.
  destruct m as [c_str w]. unfold update_metric, nonneg.
  pose proof (digits_value_nonneg c_str 0 (Z.le_refl 0)).
  intros (? & ? & ? & ?).
  repeat (destruct (_ || _) || destruct (contains _ _)); simpl; auto.
Qed.

Lemma scan_label_nonneg (aria_text : string) (r : metrics) :
  nonneg r -> nonneg (scan_label aria_text r).
Proof.
  unfold scan_label. generalize (findall (lower (remove_char "," (remove_char "." aria_text)))).
  intros l. revert r. induction l as [|m l IH]; simpl; intros r H; [exact H|].
  apply IH, update_metric_nonneg, H.
Qed.

Lemma label_step_nonneg (d : engagement_dom) (r r' : metrics) :
  nonneg r -> label_step d r = Ok r' -> nonneg r'.
Proof.
  unfold label_step. intros H.
  destruct (group_label d) as [[attr|]|e]; simpl; intros [= <-];
    [now apply scan_label_nonneg | exact H].
Qed.

Lemma label_step_ext (d1 d2 : engagement_dom) (r : metrics) :
  group_label d1 = group_label d2 -> label_step d1 r = label_step d2 r.
Proof. unfold label_step. now intros ->. Qed.

Lemma views_step_ext (d1 d2 : engagement_dom) (r : metrics) :
  views_link d1 = views_link d2 -> views_step d1 r = views_step d2 r.
Proof. unfold views_step. now intros ->. Qed.

(** The views step leaves the three other counts alone, and a count of
    views already found as well. *)
Lemma views_step_keeps (d : engagement_dom) (r r' : metrics) :
  views_step d r = Ok r' ->
  Reply r' = Reply r /\ Repost r' = Repost r /\ Like r' = Like r
  /\ (Views r <> 0 -> Views r' = Views r).
Proof.
  unfold views_step. destruct (Z.eqb_spec (Views r) 0) as [E|E].
  - destruct (handle_suffix _); simpl; intros [= <-]. simpl. tauto.
  - intros [= <-]. tauto.
Qed.

Lemma views_step_nonneg (d : engagement_dom) (r r' : metrics) :
  nonneg r -> views_step d r = Ok r' -> nonneg r'.
Proof.
  unfold views_step, nonneg. intros (? & ? & ? & ?).
  destruct (Views r =? 0); [|now intros [= <-]].
  destruct (handle_suffix _) as [v|e] eqn:E; simpl; intros [= <-]. simpl.
  apply handle_suffix_nonneg in E. tauto.
Qed.

Lemma reply_step_skip (d : engagement_dom) (r : metrics) :
  Reply r <> 0 -> reply_step d r = Ok r.
Proof. unfold reply_step. intros H. now destruct (Z.eqb_spec (Reply r) 0). Qed.

(** Any change made by the reply step starts from 0 and installs the
    positive count read from the button. *)
Lemma reply_step_change (d : engagement_dom) (r r' : metrics) :
  reply_step d r = Ok r' -> r' <> r ->
  Reply r = 0 /\ 0 < Reply r'
  /\ handle_suffix (safe_get_text (reply_button d) "0") = Ok (Reply r')
  /\ r' = set_Reply (Reply r') r.
Proof.
  unfold reply_step. destruct (Z.eqb_spec (Reply r) 0) as [E|E].
  - destruct (handle_suffix _) as [v|e]; simpl; [|discriminate].
    destruct (Z.ltb_spec 0 v); intros [= <-] Hne; [|contradiction].
    simpl. auto.
  - intros [= <-] Hne. contradiction.
Qed.

(** Later pairs for a field replace earlier ones: the last pair of a
    list of matches decides its field. *)
Lemma update_metric_last (l : list (string * string)) (c_str w : string) (r : metrics) :
  contains "like" w = true ->
  contains "reply" w = false -> contains "comment" w = false ->
  contains "retweet" w = false -> contains "repost" w = false ->
  Like (fold_left update_metric (l ++ [(c_str, w)]) r) = digits_value 0 c_str.
Proof.
  intros H1 H2 H3 H4 H5. rewrite fold_left_app. simpl.
  now rewrite H1, H2, H3, H4, H5.
Qed.

(** C6: the label "12 replies 3 reposts 100 likes" without a views
    element (and without a reply button) does not give replies 12: the
    word "replies" does not contain "reply", so the pair is dropped and
    [Reply] stays 0.  The singular "reply" is recognised. *)
Theorem parse_engagement_plural_replies (depth attempt : nat) :
  parse_engagement (S depth)
    (fun _ => Sample.label_only "12 replies 3 reposts 100 likes") attempt
  = {| Reply := 0; Repost := 3; Like := 100; Views := 0 |}
  /\ contains "reply" "replies" = false
  /\ parse_engagement (S depth)
       (fun _ => Sample.label_only "12 reply 3 reposts 100 likes") attempt
     = {| Reply := 12; Repost := 3; Like := 100; Views := 0 |}.
Proof. repeat split; vm_compute; reflexivity. Qed.

(** C7: when the grouped label gave a nonzero count of replies, the
    answer of the reply button has no part in the result, which keeps
    the label's count; and the reply step changes the record only from
    a count of 0, to the strictly positive value read from the button. *)
Theorem reply_button_guard :
  (forall (depth : nat) (dom1 dom2 : nat -> engagement_dom) (attempt : nat)
          (r1 : metrics),
      group_label (dom1 attempt) = group_label (dom2 attempt) ->
      views_link (dom1 attempt) = views_link (dom2 attempt) ->
      label_step (dom1 attempt) zero_metrics = Ok r1 ->
      Reply r1 <> 0 ->
      parse_engagement (S depth) dom1 attempt
      = parse_engagement (S depth) dom2 attempt
      /\ Reply (parse_engagement (S depth) dom1 attempt) = Reply r1)
  /\ (forall (d : engagement_dom) (r : metrics),
         Reply r <> 0 -> reply_step d r = Ok r)
  /\ (forall (d : engagement_dom) (r r' : metrics),
         reply_step d r = Ok r' -> r' <> r ->
         Reply r = 0 /\ 0 < Reply r'
         /\ handle_suffix (safe_get_text (reply_button d) "0") = Ok (Reply r')
         /\ r' = set_Reply (Reply r') r).
Proof.
  split; [|split; [exact reply_step_skip | exact reply_step_change]].
  intros depth dom1 dom2 attempt r1 Hg Hv Hl Hr.
  cbn [parse_engagement].
  rewrite <- (label_step_ext _ _ _ Hg), Hl, <- (views_step_ext _ _ _ Hv).
  pose proof (label_step_nonneg _ _ _ zero_nonneg Hl) as N1.
  destruct (views_step (dom1 attempt) r1) as [r2|e] eqn:V; [|now split].
  destruct (views_step_keeps _ _ _ V) as (K1 & _).
  pose proof (views_step_nonneg _ _ _ N1 V) as (? & ? & ? & ?).
  assert (Reply r2 <> 0) as Hr2 by congruence.
  rewrite !(reply_step_skip _ r2 Hr2).
  destruct (Z.eqb_spec (sum_values r2) 0) as [E|E]; [|now split].
  unfold sum_values in E. lia.
Qed.

Lemma reply_button_guard_witness :
  parse_engagement 1
    (fun _ => {| group_label := Ok (Some (Some "5 comments"));
                 views_link := Ok None; reply_button := Ok (Some "0") |}) 0
  = parse_engagement 1
      (fun _ => {| group_label := Ok (Some (Some "5 comments"));
                   views_link := Ok None; reply_button := Ok (Some "7") |}) 0
  /\ Reply (parse_engagement 1
       (fun _ => {| group_label := Ok (Some (Some "5 comments"));
                    views_link := Ok None; reply_button := Ok (Some "0") |}) 0)
     = 5.
Proof.
  apply (proj1 reply_button_guard 0%nat _ _ 0%nat
           {| Reply := 5; Repost := 0; Like := 0; Views := 0 |});
    [reflexivity | reflexivity | vm_compute; reflexivity | discriminate].
Defined.

End Engagement.

(** ** The post classifier *)

(** C8: [get_tweet_type] tests the reposted-by marker, then the quoted-post
    container, then the promoted-placement marker, and the first one found
    decides; without any it answers Original.  A node with the first
    marker is a Repost whatever else it carries, and when no lookup
    raises there is exactly one answer. *)
Theorem get_tweet_type_precedence (tweet : tweet_dom) :
  (found (social_context tweet) = true -> get_tweet_type tweet = Ok Retweet)
  /\ (absent (social_context tweet) = true ->
      found (quote_tweet tweet) = true -> get_tweet_type tweet = Ok Quote)
  /\ (absent (social_context tweet) = true ->
      absent (quote_tweet tweet) = true ->
      found (placement_tracking tweet) = true -> get_tweet_type tweet = Ok Promoted)
  /\ (absent (social_context tweet) = true ->
      absent (quote_tweet tweet) = true ->
      absent (placement_tracking tweet) = true -> get_tweet_type tweet = Ok Original)
  /\ ((exists a b c, social_context tweet = Ok a /\ quote_tweet tweet = Ok b
                     /\ placement_tracking tweet = Ok c) ->
      exists ty, get_tweet_type tweet = Ok ty
                 /\ forall ty', get_tweet_type tweet = Ok ty' -> ty' = ty).
Proof.
  unfold get_tweet_type.
  destruct (social_context tweet) as [[[]|]|e1],
           (quote_tweet tweet) as [[[]|]|e2],
           (placement_tracking tweet) as [[[]|]|e3]; simpl;
    repeat split; try discriminate; try reflexivity;
    try (intros (a & b & c & ? & ? & ?); discriminate);
    intros _; eexists; (split; [reflexivity | congruence]).
Qed.

Lemma get_tweet_type_precedence_witness :
  get_tweet_type
    {| data_tweet_id := Ok None; inner_html := Ok "";
       tweet_text := Ok None; time_datetime := Ok None;
       social_context := Ok (Some tt); quote_tweet := Ok (Some tt);
       placement_tracking := Ok None;
       engagement := fun _ => Sample.label_only "" |}
  = Ok Retweet.
Proof. apply (proj1 (get_tweet_type_precedence _)). reflexivity. Defined.

(** ** The scroll collector *)

Section CollectorFacts.

Variable hash : string -> Z.
Variable depth : nat.

Lemma emit_known (t : tweet_data) (st : run) :
  id t ∈ processed_tweets (self st) -> emit (Some t) st = st.
Proof.
  intros H. unfold emit.
  rewrite (bool_decide_eq_false_2 (id t ∉ processed_tweets (self st)));
    [now rewrite andb_false_r | tauto].
Qed.

Lemma emit_collected (self0 : scraper) (t : option tweet_data) (st : run) :
  collected self0 st -> collected self0 (emit t st).
Proof.
  intros (HL & HN & HD). unfold emit.
  destruct t as [t|]; [|done].
  destruct (negb _ && bool_decide _) eqn:E; [|done].
  apply andb_true_iff in E as [_ Hf]. apply bool_decide_eq_true in Hf.
  rewrite HL in Hf. unfold collected. simpl.
  rewrite fmap_app, list_to_set_app_L, HL. simpl.
  split; [set_solver|]. split.
  - apply NoDup_app. split; [done|]. split; [|apply NoDup_singleton].
    intros i Hi ->%list_elem_of_singleton. apply Hf. set_solver.
  - intros i [Hi| ->%list_elem_of_singleton]%elem_of_app; [now apply HD|].
    set_solver.
Qed.

Lemma emit_mono (t : option tweet_data) (st : run) :
  processed_tweets (self st) ⊆ processed_tweets (self (emit t st)).
Proof.
  unfold emit. destruct t as [t|]; [|done].
  destruct (negb _ && bool_decide _); simpl; set_solver.
Qed.


Lemma process_collected (self0 : scraper) (dom_ : node -> tweet_dom)
    (l : list node) (st : run) :
  collected self0 st -> collected self0 (process hash depth dom_ l st).
Proof.
  unfold process. revert st.
  induction l as [|tw l IH]; simpl; intros st H; [exact H|].
  apply IH, emit_collected, H.
Qed.

Lemma process_mono (dom_ : node -> tweet_dom) (l : list node) (st : run) :
  processed_tweets (self st) ⊆ processed_tweets (self (process hash depth dom_ l st)).
Proof.
  unfold process. revert st.
  induction l as [|tw l IH]; simpl; intros st; [done|].
  etrans; [apply emit_mono | apply IH].
Qed.


Lemma process_known (dom_ : node -> tweet_dom) (l : list node) (st : run) :
  (forall tw t, tw ∈ l -> parse_tweet hash depth (dom_ tw) = Some t ->
                id t ∈ processed_tweets (self st)) ->
  process hash depth dom_ l st = st.
Proof.
  unfold process.
  induction l as [|tw l IH]; simpl; intros H; [done|].
  assert (emit (parse_tweet hash depth (dom_ tw)) st = st) as ->.
  { destruct (parse_tweet hash depth (dom_ tw)) as [t|] eqn:E; [|done].
    apply emit_known, (H tw); [left | done]. }
  apply IH. intros tw' t Hin. apply H. now right.
Qed.



Lemma deliver_collected (self0 : scraper) (it : iteration) (st : run) :
  collected self0 st -> collected self0 (deliver it st).
Proof. unfold deliver. now destruct (sigint it). Qed.

Lemma iterate_collected (self0 : scraper) (it : iteration) (st : run) :
  collected self0 st -> collected self0 (iterate hash depth it st).1.
Proof.
  intros H%(deliver_collected self0 it). unfold iterate.
  destruct (should_exit _); [exact H|].
  destruct (before it) as [b|]; [|done].
  destruct (scrolled it) as [u1|]; [|done].
  destruct (waited it) as [u2|]; [|done].
  destruct (after it) as [a|]; [|done].
  assert (collected self0
            (process hash depth (dom it) (new_ones b a)
               (issue QueryTweets (issue (WaitForTimeout 2000)
                  (issue (ScrollBy 800) (issue QueryTweets (deliver it st)))))))
    as H' by (apply process_collected; done).
  now destruct (new_ones b a).
Qed.

Lemma loop_collected (self0 : scraper) (env : list iteration) (st : run) :
  collected self0 st -> collected self0 (loop hash depth env st).1.
Proof.
  revert st. induction env as [|it env IH]; simpl; intros st H; [exact H|].
  pose proof (iterate_collected self0 it st H) as H'.
  destruct (iterate hash depth it st) as [st' [r|]]; [exact H'|]. now apply IH.
Qed.

(** The ledger only grows in the course of a call. *)
Lemma iterate_mono (it : iteration) (st : run) :
  processed_tweets (self st) ⊆ processed_tweets (self (iterate hash depth it st).1).
Proof.
  assert (processed_tweets (self (deliver it st)) = processed_tweets (self st)) as <-
    by (unfold deliver; now destruct (sigint it)).
  unfold iterate.
  destruct (should_exit _); [done|].
  destruct (before it) as [b|]; [|done].
  destruct (scrolled it) as [u1|]; [|done].
  destruct (waited it) as [u2|]; [|done].
  destruct (after it) as [a|]; [|done].
  pose proof (process_mono (dom it) (new_ones b a)
                (issue QueryTweets (issue (WaitForTimeout 2000)
                   (issue (ScrollBy 800) (issue QueryTweets (deliver it st))))))
    as H.
  now destruct (new_ones b a).
Qed.

Lemma loop_mono (env : list iteration) (st : run) :
  processed_tweets (self st) ⊆ processed_tweets (self (loop hash depth env st).1).
Proof.
  revert st. induction env as [|it env IH]; simpl; intros st; [done|].
  pose proof (iterate_mono it st) as H.
  destruct (iterate hash depth it st) as [st' [r|]]; [exact H|].
  etrans; [exact H | apply IH].
Qed.

Lemma start_collected (self_ : scraper) :
  collected self_ {| self := self_; all_tweets := []; calls := [] |}.
Proof.
  unfold collected. simpl. split; [set_solver|]. split; [constructor|].
  intros i Hi. now apply not_elem_of_nil in Hi.
Qed.

Lemma run_collected (env : list iteration) (self_ : scraper) :
  collected self_ (load_and_parse_tweets hash depth env self_).1.
Proof. apply loop_collected, start_collected. Qed.

Lemma loop_app (its rest : list iteration) (st st' : run) :
  loop hash depth its st = (st', None) ->
  loop hash depth (its ++ rest) st = loop hash depth rest st'.
Proof.
  revert st. induction its as [|it its IH]; simpl; intros st.
  - now intros [= ->].
  - destruct (iterate hash depth it st) as [st1 [r|]]; [discriminate|]. apply IH.
Qed.

(** C3: the ids of the records returned by one call of
    [load_and_parse_tweets] are pairwise distinct, and a node whose id
    is already in the ledger adds nothing: the state after it, and so
    the output and its length, is the state before it. *)
Theorem collector_dedup :
  (forall (env : list iteration) (self_ : scraper),
      NoDup (id <$> all_tweets (load_and_parse_tweets hash depth env self_).1))
  /\ (forall (t : tweet_data) (st : run),
         id t ∈ processed_tweets (self st) -> emit (Some t) st = st)
  /\ (forall (dom_ : node -> tweet_dom) (l : list node) (st : run),
         (forall tw t, tw ∈ l -> parse_tweet hash depth (dom_ tw) = Some t ->
                       id t ∈ processed_tweets (self st)) ->
         process hash depth dom_ l st = st).
Proof.
  split; [|split; [exact emit_known | exact process_known]].
  intros env self_. apply (run_collected env self_).
Qed.


(** C5: when the flag is found set at the top of the pass that follows
    [its], the loop is left there: the records are those collected
    through [its], and the calls issued are those issued through [its],
    with no scroll and no wait after them. *)
Theorem loop_cancellation (its : list iteration) (it : iteration)
    (rest : list iteration) (st st' : run) :
  loop hash depth its st = (st', None) ->
  sigint it = true ->
  loop hash depth (its ++ it :: rest) st
  = ({| self := exit_gracefully (self st');
        all_tweets := all_tweets st';
        calls := calls st' |}, Some Cancelled).
Proof.
  intros Hrun Hi. rewrite (loop_app _ _ _ _ Hrun). cbn [loop].
  unfold iterate, deliver. now rewrite Hi.
Qed.

(** C9 (as amended): the ledger belongs to the scraper, not to the call.
    A call starts from the ledger its scraper has, adds the ids of the
    records it returns and returns no id that was in the ledger at its
    start; only a scraper as [__init__] leaves it has an empty
    ledger. *)
Theorem ledger_persists (env : list iteration) (self_ : scraper) :
  processed_tweets (self (load_and_parse_tweets hash depth env self_).1)
  = processed_tweets self_
    ∪ list_to_set (id <$> all_tweets (load_and_parse_tweets hash depth env self_).1)
  /\ (forall i : string,
         i ∈ id <$> all_tweets (load_and_parse_tweets hash depth env self_).1 ->
         i ∉ processed_tweets self_)
  /\ processed_tweets init = ∅.
Proof.
  destruct (run_collected env self_) as (HL & _ & HD). now repeat split.
Qed.

(** *** Content-hash identifiers *)

Lemma str_of_int_not_empty (n : Z) : PyStr.is_empty (PyStr.str_of_int n) = false.
Proof.
  unfold PyStr.str_of_int. destruct (Z.to_int n) as [d|d]; [|reflexivity].
  now destruct d.
Qed.

Lemma parse_tweet_fallback (tweet : tweet_dom) (html : string) (d : tweet_data) :
  data_tweet_id tweet = Ok None -> inner_html tweet = Ok html ->
  parse_tweet hash depth tweet = Some d ->
  id d = PyStr.str_of_int (hash html).
Proof.
  intros Hid Hhtml. unfold parse_tweet, build_tweet, tweet_id_of, fallback_id.
  rewrite Hid. simpl. rewrite Hhtml. simpl.
  destruct (tweet_text tweet); simpl; [|discriminate].
  destruct (time_datetime tweet); simpl; [|discriminate].
  destruct (get_tweet_type tweet); simpl; [|discriminate].
  now intros [= <-].
Qed.

Lemma filter_id_absent (i : string) (l : list tweet_data) :
  i ∉ id <$> l -> filter (fun t => id t = i) l = [].
Proof.
  induction l as [|t l IH]; [done|]. rewrite fmap_cons, not_elem_of_cons.
  intros [Hne Hl]. rewrite filter_cons_False; [now apply IH | congruence].
Qed.

Lemma filter_id_NoDup (i : string) (l : list tweet_data) :
  NoDup (id <$> l) -> (length (filter (fun t => id t = i) l) <= 1)%nat.
Proof.
  induction l as [|t l IH]; [simpl; lia|].
  rewrite fmap_cons, NoDup_cons. intros [Hn Hl].
  destruct (decide (id t = i)) as [E|E].
  - rewrite filter_cons_True by done. subst i.
    rewrite (filter_id_absent _ _ Hn). simpl. lia.
  - rewrite filter_cons_False by done. now apply IH.
Qed.

End CollectorFacts.

(** ** Runs on the sample pages *)


Lemma loop_cancellation_witness :
  (id <$> all_tweets
     (loop Sample.hash 3
        ([Sample.pass [] [0%nat; 1%nat]] ++ Sample.interrupted :: Sample.feed)
        Sample.start).1) = ["a"; "b"]
  /\ calls
       (loop Sample.hash 3
          ([Sample.pass [] [0%nat; 1%nat]] ++ Sample.interrupted :: Sample.feed)
          Sample.start).1
     = [QueryTweets; ScrollBy 800; WaitForTimeout 2000; QueryTweets].
Proof.
  rewrite (loop_cancellation Sample.hash 3
             [Sample.pass [] [0%nat; 1%nat]] Sample.interrupted Sample.feed
             Sample.start
             (loop Sample.hash 3 [Sample.pass [] [0%nat; 1%nat]] Sample.start).1);
    [split; reflexivity | reflexivity | reflexivity].
Defined.

Lemma collector_dedup_witness :
  emit (Some {| id := "a"; post_type := Original; text := NotSpecified;
                date := None; interactions := zero_metrics |})
       (load_and_parse_tweets Sample.hash 3 Sample.feed init).1
  = (load_and_parse_tweets Sample.hash 3 Sample.feed init).1.
Proof.
  apply (proj1 (proj2 (collector_dedup Sample.hash 3))).
  refine (proj1 (bool_decide_eq_true _) _). vm_compute. reflexivity.
Defined.

Lemma ledger_persists_witness :
  ("a" ∉ processed_tweets init)
  /\ ("a" ∈ processed_tweets
              (self (load_and_parse_tweets Sample.hash 3 Sample.feed init).1)).
Proof.
  split.
  - apply (proj1 (proj2 (ledger_persists Sample.hash 3 Sample.feed init)) "a").
    refine (proj1 (bool_decide_eq_true _) _). vm_compute. reflexivity.
  - rewrite (proj1 (ledger_persists Sample.hash 3 Sample.feed init)).
    refine (proj1 (bool_decide_eq_true _) _). vm_compute. reflexivity.
Defined.

(** C9 (as stated) fails: a second call on the same scraper starts with
    the ledger the first one filled, and on the same feed returns nothing
    where a call on a new scraper returns two records. *)
Lemma ledger_outlives_run :
  id <$> all_tweets (load_and_parse_tweets Sample.hash 3 Sample.feed init).1
  = ["a"; "b"]
  /\ "a" ∈ processed_tweets
            (self (load_and_parse_tweets Sample.hash 3 Sample.feed init).1)
  /\ all_tweets
       (load_and_parse_tweets Sample.hash 3 Sample.feed
          (self (load_and_parse_tweets Sample.hash 3 Sample.feed init).1)).1
     = [].
Proof.
  split; [reflexivity|]. split; [|reflexivity].
  refine (proj1 (bool_decide_eq_true _) _). vm_compute. reflexivity.
Qed.




(** * Further properties of the code *)

(** ** More on the normalizer *)

Section NormalizerMore.

Import PyStr.

#[local] Arguments String.append !s1 s2 : simpl nomatch.

Ltac by_char c :=
  destruct c as [[] [] [] [] [] [] [] []]; vm_compute; try reflexivity;
  try discriminate; intuition congruence.

Lemma span_forallb (p q : ascii -> bool) (s a b : string) :
  span p s = (a, b) -> forallb q s = true ->
  forallb q a = true /\ forallb q b = true.
Proof.
  revert a b. induction s as [|c s IH]; simpl; intros a b.
  - intros [= <- <-]. now split.
  - destruct (p c).
    + destruct (span p s) as [a' b'] eqn:E. intros [= <- <-].
      intros [Hc Hs]%andb_true_iff. destruct (IH a' b' eq_refl Hs) as [Ha Hb].
      simpl. now rewrite Hc, Ha.
    + intros [= <- <-] H. now split.
Qed.

Lemma span_prefix_holds (p : ascii -> bool) (s a b : string) :
  span p s = (a, b) -> forallb p a = true.
Proof.
  revert a b. induction s as [|c s IH]; simpl; intros a b.
  - now intros [= <- <-].
  - destruct (p c) eqn:Hc.
    + destruct (span p s) as [a' b'] eqn:E. intros [= <- <-].
      simpl. now rewrite Hc, (IH a' b' eq_refl).
    + now intros [= <- <-].
Qed.

Lemma span_all (p : ascii -> bool) (s : string) :
  forallb p s = true -> span p s = (s, EmptyString).
Proof.
  intros H. rewrite <- (append_nil_r s) at 1. now apply span_app.
Qed.

Lemma search_suffix_group (q : ascii -> bool) (s g1 : string) (g2 : option string) :
  search_suffix s = Some (g1, g2) -> forallb q s = true ->
  forallb q g1 = true /\ forallb is_num_char g1 = true /\ is_empty g1 = false.
Proof.
  induction s as [|c s IH]; cbn [search_suffix].
  - vm_compute. discriminate.
  - destruct (match_suffix_here (String c s)) as [m|] eqn:E.
    + intros [= ->] Hq. unfold match_suffix_here in E.
      destruct (span is_num_char (String c s)) as [a b] eqn:Es.
      destruct (is_empty a) eqn:Ea; [discriminate|].
      destruct (span_forallb _ q _ _ _ Es Hq) as [Ha _].
      pose proof (span_prefix_holds _ _ _ _ Es) as Hn.
      destruct (span is_space b) as [a' b'].
      destruct b' as [|k b']; [|destruct (is_KMB k)]; injection E as <- <-; auto.
    + intros H Hq. simpl in Hq. apply andb_true_iff in Hq as [_ Hq]. now apply IH.
Qed.

(** *** No NaN *)

Lemma shr_1_nonneg (mrs : shr_record) : 0 <= shr_m mrs -> 0 <= shr_m (shr_1 mrs).
Proof.
  destruct mrs as [m r s]. simpl.
  destruct m as [|p|p]; [simpl; lia| |lia].
  intros _. destruct p; simpl; lia.
Qed.

Lemma iter_pos_keeps {A : Type} (P : A -> Prop) (f : A -> A) :
  (forall x, P x -> P (f x)) -> forall (n : positive) (x : A), P x -> P (SpecFloat.iter_pos f n x).
Proof. intros Hf. induction n; simpl; auto. Qed.

Lemma shr_fexp_nonneg (m e : Z) (l : location) :
  0 <= m -> 0 <= shr_m (fst (shr_fexp Float64.prec Float64.emax m e l)).
Proof.
  intros Hm. unfold shr_fexp, shr.
  assert (0 <= shr_m (shr_record_of_loc m l)) as H0
    by (destruct l as [|[]]; exact Hm).
  destruct (_ - e) as [|p|p]; simpl; try exact H0.
  apply (iter_pos_keeps (fun mrs => 0 <= shr_m mrs)); [apply shr_1_nonneg | exact H0].
Qed.

Lemma round_nearest_even_nonneg (m : Z) (l : location) :
  0 <= m -> 0 <= round_nearest_even m l.
Proof.
  intros Hm. destruct l as [|[]]; simpl; try lia. destruct (Z.even m); lia.
Qed.

Lemma round_aux_not_nan (sx : bool) (m e : Z) (l : location) :
  0 <= m -> is_nan (binary_round_aux Float64.prec Float64.emax sx m e l) = false.
Proof.
  intros Hm. unfold binary_round_aux.
  pose proof (shr_fexp_nonneg m e l Hm) as H1.
  destruct (shr_fexp _ _ m e l) as [mrs' e']. simpl in H1.
  pose proof (shr_fexp_nonneg _ e' loc_Exact
                (round_nearest_even_nonneg _ (loc_of_shr_record mrs') H1)) as H2.
  destruct (shr_fexp _ _ _ e' loc_Exact) as [mrs'' e'']. simpl in H2.
  destruct (shr_m mrs''); [reflexivity| |lia].
  now destruct (Z.leb _ _).
Qed.

Lemma of_decimal_not_nan (n : Z) (k : nat) :
  0 <= n -> is_nan (Float64.of_decimal n k) = false.
Proof.
  intros Hn. unfold Float64.of_decimal, Float64.exact.
  assert (0 < 10 ^ Z.of_nat k) as Hd by (apply Z.pow_pos_nonneg; lia).
  destruct (10 ^ Z.of_nat k) as [|d|d]; try lia.
  destruct n as [|p|p]; try lia; [reflexivity|].
  cbn [SFdiv]. unfold SFdiv_core_binary.
  set (m' := match _ - _ - _ with Z0 => Z.pos p | Z.pos _ => _ | Z.neg _ => 0 end).
  assert (0 <= m') as Hm'.
  { subst m'. destruct (_ - _ - _); [lia| |lia]. apply Z.shiftl_nonneg. lia. }
  destruct (Z.div_eucl m' (Z.pos d)) as [q r] eqn:E.
  apply round_aux_not_nan.
  assert (q = m' / Z.pos d) as -> by (unfold Z.div; now rewrite E).
  apply Z.div_pos; lia.
Qed.

Lemma mul_finite_not_nan (x : spec_float) (m : positive) (e : Z) :
  is_nan x = false -> is_nan (Float64.mul x (S754_finite false m e)) = false.
Proof.
  destruct x as [sx|sx| |sx mx ex]; simpl; intros H; try reflexivity; try discriminate.
  apply round_aux_not_nan. lia.
Qed.

Lemma suffix_map_finite (suffix : string) :
  exists (m : positive) (e : Z), suffix_map_get suffix = S754_finite false m e.
Proof.
  unfold suffix_map_get. repeat destruct (String.eqb _ _); vm_compute; eauto.
Qed.

Lemma of_str_not_nan (g : string) (num : spec_float) :
  Float64.of_str g = Ok num -> is_nan num = false.
Proof.
  unfold Float64.of_str. destruct (span is_digit g) as [ip r].
  destruct r as [|c fp].
  - destruct (is_empty ip); intros [= <-].
    apply of_decimal_not_nan, digits_value_nonneg. lia.
  - destruct (_ && _); intros [= <-].
    apply of_decimal_not_nan, digits_value_nonneg, digits_value_nonneg. lia.
Qed.

Lemma no_dot_digit (c : ascii) :
  is_num_char c = true -> negb (Ascii.eqb c ".") = true -> is_digit c = true.
Proof. by_char c. Qed.

Lemma space_not_num_char (c : ascii) : is_space c = true -> is_num_char c = false.
Proof. by_char c. Qed.

(** X1: whatever [handle_suffix] returns is at least 0, for every
    text. *)
Theorem handle_suffix_never_negative (text : string) (z : Z) :
  handle_suffix text = Ok z -> 0 <= z.
Proof. apply handle_suffix_nonneg. Qed.

Lemma handle_suffix_never_negative_witness :
  handle_suffix " about 3 k views" = Ok 3000 /\ 0 <= 3000.
Proof.
  split; [reflexivity|].
  apply (handle_suffix_never_negative " about 3 k views"). reflexivity.
Defined.

(** X2: a text without a dot never makes [handle_suffix] raise
    [ValueError]: the only exception left is the [OverflowError] of
    [int] on an infinite product. *)
Theorem handle_suffix_no_dot (text : string) (e : exn) :
  forallb (fun c => negb (Ascii.eqb c ".")) text = true ->
  handle_suffix text = Raise e -> e = OverflowError.
Proof.
  intros Hdot. unfold handle_suffix.
  assert (forallb (fun c => negb (Ascii.eqb c "."))
            (strip (remove_char "," text)) = true) as Hc
    by now apply strip_forallb, remove_char_forallb.
  destruct (search_suffix _) as [[g1 g2]|] eqn:E.
  - destruct (search_suffix_group _ _ _ _ E Hc) as (Hnd & Hnum & Hne).
    assert (forallb is_digit g1 = true) as Hd.
    { clear E Hne. induction g1 as [|c g IH]; [reflexivity|]. simpl in *.
      apply andb_true_iff in Hnd as [? ?]. apply andb_true_iff in Hnum as [? ?].
      rewrite (no_dot_digit c) by assumption. now apply IH. }
    unfold Float64.of_str. rewrite (span_all _ _ Hd), Hne. simpl.
    destruct (suffix_map_finite (upper (default EmptyString g2))) as (m & e' & ->).
    pose proof (mul_finite_not_nan _ m e'
                  (of_decimal_not_nan (digits_value 0 g1) 0
                     (digits_value_nonneg g1 0 (Z.le_refl 0)))) as Hn.
    destruct (Float64.mul _ _); simpl; try discriminate; now intros [= <-].
  - now destruct (int_of_str _).
Qed.

Lemma handle_suffix_no_dot_witness :
  forallb (fun c => negb (Ascii.eqb c ".")) Demo.huge_number = true
  /\ handle_suffix Demo.huge_number = Raise OverflowError
  /\ OverflowError = OverflowError.
Proof.
  split; [reflexivity|]. split; [vm_compute; reflexivity|].
  apply (handle_suffix_no_dot Demo.huge_number OverflowError);
    vm_compute; reflexivity.
Defined.

(** *** What follows the number *)

Lemma rstrip_cons_nonspace (k : ascii) (r : string) :
  is_space k = false -> rstrip (String k r) = String k (rstrip r).
Proof. intros H. simpl. destruct (rstrip r); now rewrite ?H. Qed.

Lemma rstrip_app (a s' : string) :
  is_empty (rstrip s') = false -> rstrip (a +:+ s') = a +:+ rstrip s'.
Proof.
  intros H. induction a as [|x a IH]; simpl; [reflexivity|].
  rewrite IH. destruct (a +:+ rstrip s') eqn:E; [|reflexivity].
  destruct a; simpl in E; [|discriminate]. now rewrite E in H.
Qed.

Lemma space_not_comma (c : ascii) : is_space c = true -> Ascii.eqb c "," = false.
Proof. by_char c. Qed.

Lemma stops_app_spaces (ws : string) (k : ascii) (r : string) :
  forallb is_space ws = true -> is_num_char k = false ->
  stops is_num_char (ws +:+ String k r) = true.
Proof.
  destruct ws as [|c ws]; simpl; [now intros _ ->|].
  intros [Hc _]%andb_true_iff _. now rewrite (space_not_num_char c Hc).
Qed.

(** X3: [handle_suffix] reads the number at the head of the text, the
    whitespace after it and one character more, and nothing else: when
    that character is k, m or b in either case the number is scaled by
    it, whatever the character begins. *)
Theorem handle_suffix_reads_head (ip : string) (dec : option string)
    (ws : string) (k : ascii) (rest : string) :
  well_formed ip dec None = true ->
  forallb is_space ws = true ->
  is_num_char k = false -> is_space k = false -> Ascii.eqb k "," = false ->
  handle_suffix (ip +:+ dec_text dec +:+ ws +:+ String k rest)
  = handle_suffix (count_text ip dec (if is_KMB k then Some k else None)).
Proof.
  intros Hwf Hws Hk Hks Hkc.
  assert (well_formed ip dec (if is_KMB k then Some k else None) = true) as Hwf'.
  { unfold well_formed in *. destruct (is_KMB k) eqn:E; [|exact Hwf].
    cbv beta iota. rewrite E. exact Hwf. }
  rewrite (handle_suffix_count _ _ _ Hwf').
  unfold well_formed in Hwf. rewrite andb_true_r in Hwf.
  apply andb_true_iff in Hwf as [[Hip Hne]%andb_true_iff Hdec].
  apply negb_true_iff in Hne.
  pose proof (remove_comma_digits ip Hip) as Hd.
  pose proof (dec_text_num dec Hdec) as Hdn.
  unfold handle_suffix.
  assert (strip (remove_char "," (ip +:+ dec_text dec +:+ ws +:+ String k rest))
          = (remove_char "," ip +:+ dec_text dec)
            +:+ (ws +:+ String k (rstrip (remove_char "," rest)))) as ->.
  { rewrite !remove_char_app.
    rewrite (remove_char_absent "," (dec_text dec)).
    2:{ apply (forallb_impl is_num_char); [|exact Hdn].
        intros c Hc. now rewrite (num_char_not_comma c Hc). }
    rewrite (remove_char_absent "," ws).
    2:{ apply (forallb_impl is_space); [|exact Hws].
        intros c Hc. now rewrite (space_not_comma c Hc). }
    cbn [remove_char]. rewrite Hkc.
    unfold strip. rewrite <- !append_assoc.
    rewrite rstrip_app by (now rewrite rstrip_cons_nonspace).
    rewrite rstrip_cons_nonspace by exact Hks.
    rewrite !append_assoc.
    destruct (remove_char "," ip) as [|c d]; [discriminate|].
    simpl in Hd. apply andb_true_iff in Hd as [Hc _].
    simpl. now rewrite (num_char_not_space c (digit_is_num_char c Hc)). }
  assert (forallb is_num_char (remove_char "," ip +:+ dec_text dec) = true) as Hg.
  { rewrite forallb_app, Hdn, andb_true_r.
    apply (forallb_impl _ _ _ digit_is_num_char Hd). }
  rewrite (search_suffix_here _
             (remove_char "," ip +:+ dec_text dec,
              if is_KMB k then Some (String k EmptyString) else None)).
  2:{ unfold match_suffix_here.
      rewrite (span_app _ _ _ Hg (stops_app_spaces ws k _ Hws Hk)).
      rewrite (is_empty_app _ _ Hne).
      rewrite (span_app is_space ws (String k _) Hws)
        by (simpl; now rewrite Hks).
      now destruct (is_KMB k). }
  rewrite (float_of_count _ _ Hd Hne Hdec). simpl.
  unfold count_digits, count_decimals.
  destruct (is_KMB k); simpl; [now rewrite suffix_map_scale | reflexivity].
Qed.

Lemma handle_suffix_reads_head_witness :
  handle_suffix "5 Members" = handle_suffix "5M"
  /\ handle_suffix "5 Members" = Ok 5000000.
Proof.
  split; [|reflexivity].
  apply (handle_suffix_reads_head "5" None " " "M" "embers"); reflexivity.
Defined.

End NormalizerMore.

(** ** More on the engagement resolver *)

Section EngagementMore.

Lemma reply_step_ext (d1 d2 : engagement_dom) (r : metrics) :
  reply_button d1 = reply_button d2 -> reply_step d1 r = reply_step d2 r.
Proof. unfold reply_step. now intros ->. Qed.

Lemma reply_step_keeps (d : engagement_dom) (r r' : metrics) :
  reply_step d r = Ok r' ->
  Repost r' = Repost r /\ Like r' = Like r /\ Views r' = Views r.
Proof.
  unfold reply_step. destruct (Reply r =? 0); [|now intros [= <-]].
  destruct (handle_suffix _) as [v|e]; simpl; [|discriminate].
  destruct (0 <? v); now intros [= <-].
Qed.

Lemma reply_step_nonneg (d : engagement_dom) (r r' : metrics) :
  nonneg r -> reply_step d r = Ok r' -> nonneg r'.
Proof.
  unfold reply_step, nonneg. intros (? & ? & ? & ?).
  destruct (Reply r =? 0); [|now intros [= <-]].
  destruct (handle_suffix _) as [v|e]; simpl; [|discriminate].
  destruct (Z.ltb_spec 0 v); intros [= <-]; simpl; repeat split; auto; lia.
Qed.

Lemma views_step_skip (d : engagement_dom) (r : metrics) :
  Views r <> 0 -> views_step d r = Ok r.
Proof. unfold views_step. intros H. now destruct (Z.eqb_spec (Views r) 0). Qed.

Lemma attempt_nonneg (d : engagement_dom) : nonneg (fst (attempt d)).
Proof.
  unfold attempt.
  destruct (label_step d zero_metrics) as [r1|] eqn:E1; [|apply zero_nonneg].
  pose proof (label_step_nonneg _ _ _ zero_nonneg E1) as N1.
  destruct (views_step d r1) as [r2|] eqn:E2; [|exact N1].
  pose proof (views_step_nonneg _ _ _ N1 E2) as N2.
  destruct (reply_step d r2) as [r3|] eqn:E3; [|exact N2].
  exact (reply_step_nonneg _ _ _ N2 E3).
Qed.

(** [parse_engagement] in terms of its attempts. *)
Lemma parse_engagement_step (n : nat) (dom : nat -> engagement_dom) (a : nat) :
  parse_engagement (S n) dom a
  = if quiet (dom a) then parse_engagement n dom (S a) else fst (attempt (dom a)).
Proof.
  cbn [parse_engagement]. unfold quiet, attempt.
  destruct (label_step (dom a) zero_metrics) as [r1|]; [|reflexivity].
  destruct (views_step (dom a) r1) as [r2|]; [|reflexivity].
  destruct (reply_step (dom a) r2) as [r3|]; [|reflexivity].
  simpl. now destruct (sum_values r3 =? 0).
Qed.

Lemma parse_engagement_nonneg (depth : nat) (dom : nat -> engagement_dom)
    (a : nat) :
  nonneg (parse_engagement depth dom a).
Proof.
  revert a. induction depth as [|n IH]; intros a; [apply zero_nonneg|].
  rewrite parse_engagement_step. destruct (quiet (dom a)); [apply IH|].
  apply attempt_nonneg.
Qed.

(** X4: the four counts returned by [parse_engagement] are never
    negative, whatever the page answers and however deep the retries
    go. *)
Theorem parse_engagement_never_negative (depth : nat)
    (dom : nat -> engagement_dom) (a : nat) :
  0 <= Reply (parse_engagement depth dom a)
  /\ 0 <= Repost (parse_engagement depth dom a)
  /\ 0 <= Like (parse_engagement depth dom a)
  /\ 0 <= Views (parse_engagement depth dom a).
Proof. apply parse_engagement_nonneg. Qed.

(** X5: the retry of [parse_engagement].  Attempts that end normally with
    every count at 0 are repeated, each reading the page anew; the record
    returned is that of the first attempt that finds a count or is cut
    short by an exception, when there is one within the depth allowed,
    and all zero when there is none. *)
Theorem parse_engagement_retries :
  (forall (k n : nat) (dom : nat -> engagement_dom) (a : nat),
      (forall j : nat, (j < k)%nat -> quiet (dom (a + j)%nat) = true) ->
      quiet (dom (a + k)%nat) = false ->
      parse_engagement (k + S n) dom a = fst (attempt (dom (a + k)%nat)))
  /\ (forall (n : nat) (dom : nat -> engagement_dom) (a : nat),
         (forall j : nat, (j < n)%nat -> quiet (dom (a + j)%nat) = true) ->
         parse_engagement n dom a = zero_metrics).
Proof.
  assert (forall (k n : nat) (dom : nat -> engagement_dom) (a : nat),
             (forall j : nat, (j < k)%nat -> quiet (dom (a + j)%nat) = true) ->
             parse_engagement (k + n) dom a = parse_engagement n dom (a + k)%nat)
    as Hshift.
  { induction k as [|k IH]; intros n dom a Hq.
    - now rewrite Nat.add_0_r.
    - change (S k + n)%nat with (S (k + n)). rewrite parse_engagement_step.
      specialize (Hq 0%nat) as H0. rewrite Nat.add_0_r in H0.
      rewrite H0 by lia. rewrite IH.
      + f_equal. lia.
      + intros j Hj. replace (S a + j)%nat with (a + S j)%nat by lia.
        apply Hq. lia. }
  split.
  - intros k n dom a Hq Hk. rewrite (Hshift k (S n) dom a Hq).
    rewrite parse_engagement_step. now rewrite Hk.
  - intros n dom a Hq. rewrite <- (Nat.add_0_r n). now rewrite (Hshift n 0%nat dom a Hq).
Qed.

Lemma parse_engagement_retries_witness :
  parse_engagement 3
    (fun k => if (k <? 2)%nat then Sample.label_only "" else Sample.label_only "7 likes") 0
  = {| Reply := 0; Repost := 0; Like := 7; Views := 0 |}.
Proof.
  apply (proj1 parse_engagement_retries 2%nat 0%nat
           (fun k => if (k <? 2)%nat then Sample.label_only ""
                     else Sample.label_only "7 likes") 0%nat).
  - intros [|[|j]] Hj; [reflexivity | reflexivity | lia].
  - reflexivity.
Defined.

(** X6: when the grouped label gave a nonzero count of views, the
    dedicated views link has no part in the result, which keeps the
    label's count. *)
Theorem views_link_guard (depth : nat) (dom1 dom2 : nat -> engagement_dom)
    (a : nat) (r1 : metrics) :
  group_label (dom1 a) = group_label (dom2 a) ->
  reply_button (dom1 a) = reply_button (dom2 a) ->
  label_step (dom1 a) zero_metrics = Ok r1 ->
  Views r1 <> 0 ->
  parse_engagement (S depth) dom1 a = parse_engagement (S depth) dom2 a
  /\ Views (parse_engagement (S depth) dom1 a) = Views r1.
Proof.
  intros Hg Hb Hl Hv. cbn [parse_engagement].
  rewrite <- (label_step_ext _ _ _ Hg), Hl, !(views_step_skip _ r1 Hv).
  rewrite <- (reply_step_ext _ _ _ Hb).
  pose proof (label_step_nonneg _ _ _ zero_nonneg Hl) as N1.
  destruct (reply_step (dom1 a) r1) as [r3|e] eqn:R; [|now split].
  destruct (reply_step_keeps _ _ _ R) as (_ & _ & K).
  pose proof (reply_step_nonneg _ _ _ N1 R) as (? & ? & ? & ?).
  destruct (Z.eqb_spec (sum_values r3) 0) as [E|E]; [|now split].
  unfold sum_values in E. destruct N1 as (_ & _ & _ & ?). lia.
Qed.

Lemma views_link_guard_witness :
  parse_engagement 1
    (fun _ => {| group_label := Ok (Some (Some "40 views"));
                 views_link := Ok (Some "9"); reply_button := Ok None |}) 0
  = parse_engagement 1
      (fun _ => {| group_label := Ok (Some (Some "40 views"));
                   views_link := Raise PlaywrightError; reply_button := Ok None |}) 0
  /\ Views (parse_engagement 1
       (fun _ => {| group_label := Ok (Some (Some "40 views"));
                    views_link := Ok (Some "9"); reply_button := Ok None |}) 0)
     = 40.
Proof.
  apply (views_link_guard 0%nat _ _ 0%nat
           {| Reply := 0; Repost := 0; Like := 0; Views := 40 |});
    [reflexivity | reflexivity | vm_compute; reflexivity | discriminate].
Defined.

End EngagementMore.

(** ** More on the record builder *)

Section BuilderMore.

Variable hash : string -> Z.
Variable depth : nat.

Lemma tweet_id_not_empty (tweet : tweet_dom) (i : string) :
  tweet_id_of hash tweet = Ok i -> PyStr.is_empty i = false.
Proof.
  unfold tweet_id_of, fallback_id.
  destruct (data_tweet_id tweet) as [[a|]|]; simpl; [| |discriminate].
  - destruct (PyStr.is_empty a) eqn:E; [|now intros [= <-]].
    destruct (inner_html tweet); simpl; [|discriminate].
    intros [= <-]. apply str_of_int_not_empty.
  - destruct (inner_html tweet); simpl; [|discriminate].
    intros [= <-]. apply str_of_int_not_empty.
Qed.

Lemma parse_tweet_id_of (tweet : tweet_dom) (t : tweet_data) :
  parse_tweet hash depth tweet = Some t -> tweet_id_of hash tweet = Ok (id t).
Proof.
  unfold parse_tweet, build_tweet.
  destruct (tweet_id_of hash tweet) as [i|]; simpl; [|discriminate].
  destruct (tweet_text tweet); simpl; [|discriminate].
  destruct (time_datetime tweet); simpl; [|discriminate].
  destruct (get_tweet_type tweet); simpl; [|discriminate].
  now intros [= <-].
Qed.

Lemma parse_tweet_id_not_empty (tweet : tweet_dom) (t : tweet_data) :
  parse_tweet hash depth tweet = Some t -> PyStr.is_empty (id t) = false.
Proof. intros H%parse_tweet_id_of. exact (tweet_id_not_empty _ _ H). Qed.

(** X7: the identifier of a record built by [parse_tweet] is never empty.
    It is the identifier attribute when that is present and not empty,
    and then the inner markup is not read at all; otherwise it is the
    decimal text of the hash of the inner markup. *)
Theorem parse_tweet_identifier (tweet : tweet_dom) (t : tweet_data) :
  parse_tweet hash depth tweet = Some t ->
  PyStr.is_empty (id t) = false
  /\ (needs_html tweet = false ->
      data_tweet_id tweet = Ok (Some (id t))
      /\ forall html' : result string,
           parse_tweet hash depth
             {| data_tweet_id := data_tweet_id tweet;
                inner_html := html';
                tweet_text := tweet_text tweet;
                time_datetime := time_datetime tweet;
                social_context := social_context tweet;
                quote_tweet := quote_tweet tweet;
                placement_tracking := placement_tracking tweet;
                engagement := engagement tweet |}
           = Some t)
  /\ (needs_html tweet = true ->
      exists html : string,
        inner_html tweet = Ok html /\ id t = PyStr.str_of_int (hash html)).
Proof.
  intros H. split; [exact (parse_tweet_id_not_empty _ _ H)|].
  pose proof (parse_tweet_id_of _ _ H) as Hid.
  unfold needs_html. unfold tweet_id_of, fallback_id in Hid.
  destruct (data_tweet_id tweet) as [[a|]|] eqn:D; simpl in Hid; [| |discriminate].
  - destruct (PyStr.is_empty a) eqn:E.
    + split; [discriminate|]. intros _.
      destruct (inner_html tweet) as [html|]; simpl in Hid; [|discriminate].
      injection Hid as <-. now exists html.
    + injection Hid as <-. split; [|discriminate]. intros _. split; [reflexivity|].
      intros html'. revert H. unfold parse_tweet, build_tweet, tweet_id_of.
      unfold get_tweet_type. simpl. rewrite D. simpl. rewrite E. simpl. done.
  - split; [discriminate|]. intros _.
    destruct (inner_html tweet) as [html|]; simpl in Hid; [|discriminate].
    injection Hid as <-. now exists html.
Qed.

(** X8: [parse_tweet] returns the empty dict exactly when one of the
    lookups it makes for the identifier, the text, the time or the type
    raises; what happens while the metrics are read never costs the
    record, which carries whatever [parse_engagement] returned. *)
Theorem parse_tweet_fails_exactly (tweet : tweet_dom) :
  (parse_tweet hash depth tweet = None <->
   answered (data_tweet_id tweet)
   && (negb (needs_html tweet) || answered (inner_html tweet))
   && answered (tweet_text tweet)
   && answered (time_datetime tweet)
   && answered (get_tweet_type tweet) = false)
  /\ (forall t : tweet_data,
         parse_tweet hash depth tweet = Some t ->
         interactions t = parse_engagement depth (engagement tweet) 0
         /\ get_tweet_type tweet = Ok (post_type t)).
Proof.
  unfold parse_tweet, build_tweet, tweet_id_of, fallback_id, needs_html.
  destruct (data_tweet_id tweet) as [[a|]|]; simpl;
    [destruct (PyStr.is_empty a); simpl| |];
    try (destruct (inner_html tweet); simpl);
    try (destruct (tweet_text tweet); simpl);
    try (destruct (time_datetime tweet); simpl);
    try (destruct (get_tweet_type tweet); simpl);
    (split; [split; congruence | intros t; try discriminate; now intros [= <-]]).
Qed.

End BuilderMore.

Lemma parse_tweet_fails_exactly_witness :
  parse_tweet Sample.hash 3
    {| data_tweet_id := Ok (Some "a"); inner_html := Raise PlaywrightError;
       tweet_text := Ok None; time_datetime := Raise PlaywrightError;
       social_context := Ok None; quote_tweet := Ok None;
       placement_tracking := Ok None;
       engagement := fun _ => Sample.label_only "" |}
  = None.
Proof.
  apply (proj1 (parse_tweet_fails_exactly Sample.hash 3 _)). reflexivity.
Defined.

Lemma parse_tweet_identifier_witness :
  PyStr.is_empty "a" = false
  /\ data_tweet_id (Sample.identified "a") = Ok (Some "a").
Proof.
  pose proof (parse_tweet_identifier Sample.hash 3 (Sample.identified "a")
                {| id := "a"; post_type := Quote; text := Text "hello";
                   date := Some (Text "2024-01-01T00:00:00.000Z");
                   interactions :=
                     {| Reply := 1; Repost := 2; Like := 0; Views := 0 |} |}
                eq_refl) as (H1 & H2 & _).
  split; [exact H1|]. exact (proj1 (H2 eq_refl)).
Defined.

(** ** More on the scroll collector *)

Section CollectorMore.

Variable hash : string -> Z.
Variable depth : nat.

Lemma emit_prefix (t : option tweet_data) (st : run) :
  all_tweets st `prefix_of` all_tweets (emit t st).
Proof.
  unfold emit. destruct t as [t|]; [|done].
  destruct (negb _ && bool_decide _); simpl; [|done]. now exists [t].
Qed.

Lemma process_prefix (dom_ : node -> tweet_dom) (l : list node) (st : run) :
  all_tweets st `prefix_of` all_tweets (process hash depth dom_ l st).
Proof.
  unfold process. revert st. induction l as [|tw l IH]; simpl; intros st; [done|].
  etrans; [apply emit_prefix | apply IH].
Qed.

Lemma deliver_frame (it : iteration) (st : run) :
  all_tweets (deliver it st) = all_tweets st /\ calls (deliver it st) = calls st
  /\ processed_tweets (self (deliver it st)) = processed_tweets (self st).
Proof. unfold deliver. now destruct (sigint it). Qed.

(** A pass, case by case. *)
Lemma iterate_cases (it : iteration) (st : run) :
  (should_exit (self (deliver it st)) = true
   /\ iterate hash depth it st = (deliver it st, Some Cancelled))
  \/ (should_exit (self (deliver it st)) = false
      /\ exists (tail : list page_call) (st' : run),
           iterate hash depth it st = (st', Some Failed)
           /\ all_tweets st' = all_tweets st
           /\ processed_tweets (self st') = processed_tweets (self st)
           /\ should_exit (self st') = false
           /\ calls st' = calls st ++ tail
           /\ tail <> [] /\ tail `prefix_of` pass_calls)
  \/ (should_exit (self (deliver it st)) = false
      /\ exists (b a : list node),
           before it = Ok b /\ scrolled it = Ok tt /\ waited it = Ok tt
           /\ after it = Ok a
           /\ iterate hash depth it st
              = (process hash depth (dom it) (new_ones b a)
                   (issue QueryTweets (issue (WaitForTimeout 2000)
                      (issue (ScrollBy 800) (issue QueryTweets (deliver it st))))),
                 match new_ones b a with [] => Some Drained | _ :: _ => None end)).
Proof.
  destruct (deliver_frame it st) as (Ha & Hc & Hp).
  unfold iterate. destruct (should_exit (self (deliver it st))) eqn:F; [now left|].
  right.
  destruct (before it) as [b|].
  2:{ left. split; [done|]. eexists [QueryTweets], _. split; [reflexivity|].
      simpl. rewrite Ha, Hp, Hc, F. repeat split; try done. now eexists. }
  destruct (scrolled it) as [[]|].
  2:{ left. split; [done|]. eexists [QueryTweets; ScrollBy 800], _.
      split; [reflexivity|]. simpl. rewrite Ha, Hp, Hc, F, <- app_assoc.
      repeat split; try done. now eexists. }
  destruct (waited it) as [[]|].
  2:{ left. split; [done|].
      eexists [QueryTweets; ScrollBy 800; WaitForTimeout 2000], _.
      split; [reflexivity|]. simpl. rewrite Ha, Hp, Hc, F, <- !app_assoc.
      repeat split; try done. now eexists. }
  destruct (after it) as [a|].
  2:{ left. split; [done|]. eexists pass_calls, _.
      split; [reflexivity|]. simpl. rewrite Ha, Hp, Hc, F, <- !app_assoc.
      repeat split; try done. }
  right. split; [done|]. exists b, a. repeat split. now destruct (new_ones b a).
Qed.

Lemma iterate_prefix (it : iteration) (st : run) :
  all_tweets st `prefix_of` all_tweets (iterate hash depth it st).1.
Proof.
  destruct (deliver_frame it st) as (Ha & _ & _).
  destruct (iterate_cases it st)
    as [[_ ->]|[(_ & tail & st' & -> & H & _)|(_ & b & a & _ & _ & _ & _ & ->)]];
    simpl.
  - now rewrite Ha.
  - now rewrite H.
  - etrans; [|apply process_prefix]. simpl. now rewrite Ha.
Qed.

Lemma loop_prefix (env : list iteration) (st : run) :
  all_tweets st `prefix_of` all_tweets (loop hash depth env st).1.
Proof.
  revert st. induction env as [|it env IH]; simpl; intros st; [done|].
  pose proof (iterate_prefix it st) as H.
  destruct (iterate hash depth it st) as [st' [r|]]; [exact H|].
  etrans; [exact H | apply IH].
Qed.

Lemma loop_app_stopped (its rest : list iteration) (st st' : run) (r : stop) :
  loop hash depth its st = (st', Some r) ->
  loop hash depth (its ++ rest) st = (st', Some r).
Proof.
  revert st. induction its as [|it its IH]; simpl; intros st; [discriminate|].
  destruct (iterate hash depth it st) as [st1 [r1|]]; [done|]. apply IH.
Qed.

(** X9: records once collected are never dropped or reordered: whatever
    the world does in further passes, the records held after the passes
    seen so far stay at the head of the output, in the same order. *)
Theorem collected_records_kept (its rest : list iteration) (self_ : scraper) :
  all_tweets (load_and_parse_tweets hash depth its self_).1
  `prefix_of` all_tweets (load_and_parse_tweets hash depth (its ++ rest) self_).1.
Proof.
  unfold load_and_parse_tweets.
  destruct (loop hash depth its _) as [st' [r|]] eqn:E.
  - now rewrite (loop_app_stopped _ rest _ _ _ E).
  - rewrite (loop_app hash depth _ rest _ _ E). apply loop_prefix.
Qed.

End CollectorMore.

Section CollectorCalls.

Variable hash : string -> Z.
Variable depth : nat.



Lemma loop_flag_kept (env : list iteration) (st : run) :
  should_exit (self st) = true ->
  should_exit (self (loop hash depth env st).1) = true.
Proof.
  destruct env as [|it env]; simpl; [done|]. intros H.
  unfold iterate, deliver. destruct (sigint it); simpl; now rewrite ?H.
Qed.

Lemma loop_cancelled_flag (env : list iteration) (st st' : run) :
  loop hash depth env st = (st', Some Cancelled) ->
  should_exit (self st') = true.
Proof.
  revert st. induction env as [|it env IH]; simpl; intros st; [discriminate|].
  destruct (iterate_cases hash depth it st)
    as [[F ->]|[(_ & tail & st1 & -> & _)|(_ & b & a & _ & _ & _ & _ & ->)]].
  - now intros [= <-].
  - discriminate.
  - destruct (new_ones b a); [discriminate|]. apply IH.
Qed.

(** X11: cancellation is for good.  The flag is never cleared, so after a
    call that was cancelled, every later call on the same scraper returns
    no record and issues no page call, whatever the feed then holds. *)
Theorem cancelled_scraper_stays_cancelled (env1 : list iteration)
    (self_ : scraper) (st1 : run) (it : iteration) (env2 : list iteration) :
  load_and_parse_tweets hash depth env1 self_ = (st1, Some Cancelled) ->
  (load_and_parse_tweets hash depth (it :: env2) (self st1)).2 = Some Cancelled
  /\ all_tweets (load_and_parse_tweets hash depth (it :: env2) (self st1)).1 = []
  /\ calls (load_and_parse_tweets hash depth (it :: env2) (self st1)).1 = [].
Proof.
  intros H%loop_cancelled_flag. unfold load_and_parse_tweets. cbn [loop].
  unfold iterate, deliver. destruct (sigint it); simpl; now rewrite ?H.
Qed.

(** *** Where the records come from *)

Lemma emit_elem (o : option tweet_data) (st : run) (t : tweet_data) :
  t ∈ all_tweets (emit o st) -> t ∈ all_tweets st \/ o = Some t.
Proof.
  unfold emit. destruct o as [t'|]; [|now left].
  destruct (negb _ && bool_decide _); simpl; [|now left].
  intros [H| ->%list_elem_of_singleton]%elem_of_app; [now left | now right].
Qed.

Lemma process_elem (dom_ : node -> tweet_dom) (l : list node) (st : run)
    (t : tweet_data) :
  t ∈ all_tweets (process hash depth dom_ l st) ->
  t ∈ all_tweets st
  \/ exists tw : node, tw ∈ l /\ parse_tweet hash depth (dom_ tw) = Some t.
Proof.
  unfold process. revert st. induction l as [|tw l IH]; simpl; intros st; [now left|].
  intros [[H|H]%emit_elem|(tw' & Hin & Hp)]%IH.
  - now left.
  - right. exists tw. split; [left | exact H].
  - right. exists tw'. split; [now right | exact Hp].
Qed.

Lemma loop_elem (env : list iteration) (st : run) (t : tweet_data) :
  t ∈ all_tweets (loop hash depth env st).1 ->
  t ∈ all_tweets st
  \/ exists (it : iteration) (b a : list node) (tw : node),
       it ∈ env /\ before it = Ok b /\ after it = Ok a
       /\ tw ∈ a /\ (tw ∉ b)
       /\ parse_tweet hash depth (dom it tw) = Some t.
Proof.
  revert st. induction env as [|it env IH]; simpl; intros st; [now left|].
  destruct (deliver_frame it st) as (Ha & _ & _).
  assert (t ∈ all_tweets (iterate hash depth it st).1 ->
          t ∈ all_tweets st
          \/ exists (b a : list node) (tw : node),
               before it = Ok b /\ after it = Ok a /\ tw ∈ a /\ (tw ∉ b)
               /\ parse_tweet hash depth (dom it tw) = Some t) as Hit.
  { destruct (iterate_cases hash depth it st)
      as [[_ ->]|[(_ & tail & st1 & -> & H1 & _)|(_ & b & a & Hb & _ & _ & Haf & ->)]];
      simpl.
    - rewrite Ha. now left.
    - rewrite H1. now left.
    - intros [H|(tw & Hin & Hp)]%process_elem.
      + left. simpl in H. now rewrite Ha in H.
      + right. exists b, a, tw. unfold new_ones in Hin.
        apply list_elem_of_filter in Hin as [Hnb Hin]. done. }
  destruct (iterate hash depth it st) as [st1 [r|]]; simpl in *.
  - intros [H|(b & a & tw & H)]%Hit; [now left|].
    right. exists it, b, a, tw. split; [left | exact H].
  - intros [[H|(b & a & tw & H)]%Hit|(it' & b & a & tw & Hin & H)]%IH.
    + now left.
    + right. exists it, b, a, tw. split; [left | exact H].
    + right. exists it', b, a, tw. split; [now right | exact H].
Qed.

(** X12: the collector makes up nothing.  Every record returned by
    [load_and_parse_tweets] was built by [parse_tweet], in one of the
    passes, from a node present after the scroll and absent before it. *)
Theorem records_come_from_new_nodes (env : list iteration) (self_ : scraper)
    (t : tweet_data) :
  t ∈ all_tweets (load_and_parse_tweets hash depth env self_).1 ->
  exists (it : iteration) (b a : list node) (tw : node),
    it ∈ env /\ before it = Ok b /\ after it = Ok a
    /\ tw ∈ a /\ (tw ∉ b)
    /\ parse_tweet hash depth (dom it tw) = Some t.
Proof.
  intros [H|H]%loop_elem; [|exact H]. simpl in H. now apply not_elem_of_nil in H.
Qed.

(** *** What becomes of a new node *)

Lemma emit_adds (t : tweet_data) (st : run) :
  PyStr.is_empty (id t) = false ->
  id t ∈ processed_tweets (self (emit (Some t) st))
  /\ (id t ∈ processed_tweets (self st)
      \/ t ∈ all_tweets (emit (Some t) st)).
Proof.
  intros Hne. unfold emit. rewrite Hne. simpl.
  destruct (bool_decide _) eqn:E; simpl.
  - split; [set_solver|]. right. set_solver.
  - apply bool_decide_eq_false in E.
    destruct (decide (id t ∈ processed_tweets (self st))); [|tauto]. auto.
Qed.

Lemma process_covers (dom_ : node -> tweet_dom) (l : list node) (st : run)
    (tw : node) (t : tweet_data) :
  tw ∈ l -> parse_tweet hash depth (dom_ tw) = Some t ->
  id t ∈ processed_tweets (self (process hash depth dom_ l st))
  /\ (id t ∈ processed_tweets (self st)
      \/ exists t' : tweet_data,
           t' ∈ all_tweets (process hash depth dom_ l st) /\ id t' = id t).
Proof.
  revert st. induction l as [|x l IH]; intros st Hin Hp.
  - now apply not_elem_of_nil in Hin.
  - change (process hash depth dom_ (x :: l) st)
      with (process hash depth dom_ l (emit (parse_tweet hash depth (dom_ x)) st)).
    apply elem_of_cons in Hin as [->|Hin].
    + rewrite Hp.
      destruct (emit_adds t st (parse_tweet_id_not_empty hash depth _ _ Hp))
        as [H1 H2].
      split; [now apply (process_mono hash depth dom_ l)|].
      destruct H2 as [H2|H2]; [now left|]. right. exists t. split; [|done].
      destruct (process_prefix hash depth dom_ l (emit (Some t) st)) as [k ->].
      apply elem_of_app. now left.
    + destruct (IH (emit (parse_tweet hash depth (dom_ x)) st) Hin Hp) as [H1 H2].
      split; [exact H1|]. destruct H2 as [H2|H2]; [|now right].
      destruct (parse_tweet hash depth (dom_ x)) as [tx|] eqn:Ex; [|now left].
      unfold emit in H2.
      destruct (negb _ && bool_decide _) eqn:E; [|now left]. simpl in H2.
      apply elem_of_union in H2 as [H2| ->%elem_of_singleton]; [now left|].
      right. exists tx. split; [|done].
      destruct (process_prefix hash depth dom_ l (emit (Some tx) st)) as [k ->].
      apply elem_of_app. left. unfold emit. rewrite E. simpl.
      apply elem_of_app. right. now left.
Qed.

(** X13: no new node is lost in silence by a pass that runs to its end.
    When [parse_tweet] built a record for a node that appeared with the
    scroll, the identifier of that record is in the ledger after the
    pass, and either it was there before the pass or the output holds a
    record with that identifier. *)
Theorem new_nodes_are_accounted_for (it : iteration) (st : run)
    (b a : list node) (tw : node) (t : tweet_data) :
  should_exit (self (deliver it st)) = false ->
  before it = Ok b -> scrolled it = Ok tt -> waited it = Ok tt ->
  after it = Ok a ->
  tw ∈ a -> tw ∉ b ->
  parse_tweet hash depth (dom it tw) = Some t ->
  id t ∈ processed_tweets (self (iterate hash depth it st).1)
  /\ (id t ∈ processed_tweets (self st)
      \/ exists t' : tweet_data,
           t' ∈ all_tweets (iterate hash depth it st).1 /\ id t' = id t).
Proof.
  intros F Hb Hs Hw Ha Hin Hnb Hp.
  destruct (deliver_frame it st) as (_ & _ & Hl).
  assert (tw ∈ new_ones b a) as Hnew
    by (unfold new_ones; now apply list_elem_of_filter).
  unfold iterate. rewrite F, Hb, Hs, Hw, Ha.
  pose proof (process_covers (dom it) (new_ones b a)
                (issue QueryTweets (issue (WaitForTimeout 2000)
                   (issue (ScrollBy 800) (issue QueryTweets (deliver it st)))))
                tw t Hnew Hp) as H.
  simpl in H. rewrite Hl in H. now destruct (new_ones b a).
Qed.

End CollectorCalls.

Lemma cancelled_scraper_stays_cancelled_witness :
  all_tweets
    (load_and_parse_tweets Sample.hash 3 (Sample.pass [] [1%nat] :: Sample.feed)
       (self (load_and_parse_tweets Sample.hash 3
                [Sample.pass [] [0%nat]; Sample.interrupted] init).1)).1
  = [].
Proof.
  apply (cancelled_scraper_stays_cancelled Sample.hash 3
           [Sample.pass [] [0%nat]; Sample.interrupted] init
           (load_and_parse_tweets Sample.hash 3
              [Sample.pass [] [0%nat]; Sample.interrupted] init).1).
  reflexivity.
Defined.

Lemma records_come_from_new_nodes_witness :
  exists (it : iteration) (b a : list node) (tw : node),
    it ∈ Sample.feed /\ before it = Ok b /\ after it = Ok a
    /\ tw ∈ a /\ (tw ∉ b)
    /\ id <$> parse_tweet Sample.hash 3 (dom it tw) = Some "b".
Proof.
  destruct (records_come_from_new_nodes Sample.hash 3 Sample.feed init
              {| id := "b"; post_type := Quote; text := Text "hello";
                 date := Some (Text "2024-01-01T00:00:00.000Z");
                 interactions :=
                   {| Reply := 1; Repost := 2; Like := 0; Views := 0 |} |})
    as (it & b & a & tw & H1 & H2 & H3 & H4 & H5 & H6).
  - apply (list_elem_of_lookup_2 _ 1%nat). reflexivity.
  - exists it, b, a, tw. rewrite H6. done.
Defined.

Lemma new_nodes_are_accounted_for_witness :
  "a" ∈ processed_tweets
          (self (iterate Sample.hash 3 (Sample.pass [] [0%nat; 1%nat])
                   Sample.start).1).
Proof.
  apply (new_nodes_are_accounted_for Sample.hash 3
           (Sample.pass [] [0%nat; 1%nat]) Sample.start [] [0%nat; 1%nat] 0%nat
           {| id := "a"; post_type := Quote; text := Text "hello";
              date := Some (Text "2024-01-01T00:00:00.000Z");
              interactions :=
                {| Reply := 1; Repost := 2; Like := 0; Views := 0 |} |});
    try reflexivity.
  - left.
  - apply not_elem_of_nil.
Defined.

(** ** The counts of the profile *)

Section Counts.

Import PyStr.

#[local] Arguments String.append !s1 s2 : simpl nomatch.

Ltac by_char' c :=
  destruct c as [[] [] [] [] [] [] [] []]; vm_compute; try reflexivity;
  try discriminate; intuition congruence.

Lemma space_not_count_char (c : ascii) : is_space c = true -> is_count_char c = false.
Proof. by_char' c. Qed.

Lemma p_not_count_char (c : ascii) :
  Ascii.eqb (lower_char c) "p" = true -> is_count_char c = false /\ is_space c = false.
Proof. by_char' c. Qed.

Lemma KMB_not_p (k : ascii) :
  is_KMB k = true ->
  is_count_char k = false /\ is_space k = false /\ Ascii.eqb (lower_char k) "p" = false.
Proof. by_char' k. Qed.

Lemma num_char_is_count_char (c : ascii) : is_num_char c = true -> is_count_char c = true.
Proof. by_char' c. Qed.

Lemma search_posts_here (s g : string) :
  match_posts_here s = Some g -> search_posts s = Some g.
Proof. intros H. destruct s; cbn [search_posts]; now rewrite H. Qed.

Lemma match_posts_here_not_count (c : ascii) (s : string) :
  is_count_char c = false -> match_posts_here (String c s) = None.
Proof. intros H. unfold match_posts_here. simpl. now rewrite H. Qed.

Lemma search_posts_skip (pre s : string) :
  forallb (fun c => negb (is_count_char c)) pre = true ->
  search_posts (pre +:+ s) = search_posts s.
Proof.
  induction pre as [|c pre IH]; [reflexivity|]. simpl.
  intros [Hc Hp]%andb_true_iff. apply negb_true_iff in Hc.
  rewrite (match_posts_here_not_count c _ Hc). now apply IH.
Qed.

Lemma search_posts_none (s : string) :
  forallb (fun c => negb (is_count_char c)) s = true -> search_posts s = None.
Proof.
  intros H. rewrite <- (append_nil_r s). now rewrite search_posts_skip.
Qed.

Lemma prefix_ignorecase_head (c : ascii) (s : string) :
  prefix_ignorecase "posts" (String c s) = true -> Ascii.eqb (lower_char c) "p" = true.
Proof. simpl. now intros [H _]%andb_true_iff. Qed.

Lemma search_posts_count (pre g ws tail : string) :
  forallb (fun c => negb (is_count_char c)) pre = true ->
  forallb is_count_char g = true -> is_empty g = false ->
  forallb is_space ws = true ->
  prefix_ignorecase "posts" tail = true ->
  search_posts (pre +:+ g +:+ ws +:+ tail) = Some g.
Proof.
  intros Hpre Hg Hne Hws Ht. rewrite (search_posts_skip _ _ Hpre).
  apply search_posts_here. unfold match_posts_here.
  destruct tail as [|p tail]; [discriminate|].
  destruct (p_not_count_char p (prefix_ignorecase_head _ _ Ht)) as [Hp1 Hp2].
  rewrite (span_app is_count_char g (ws +:+ String p tail) Hg).
  2:{ destruct ws as [|c ws]; simpl; [now rewrite Hp1|].
      simpl in Hws. apply andb_true_iff in Hws as [Hc _].
      now rewrite (space_not_count_char c Hc). }
  rewrite Hne.
  rewrite (span_app is_space ws (String p tail) Hws) by (simpl; now rewrite Hp2).
  now rewrite Ht.
Qed.

Lemma search_posts_blocked (g : string) (k : ascii) (tail : string) :
  forallb is_count_char g = true ->
  is_count_char k = false -> is_space k = false ->
  Ascii.eqb (lower_char k) "p" = false ->
  forallb (fun c => negb (is_count_char c)) tail = true ->
  search_posts (g +:+ String k tail) = None.
Proof.
  intros Hg Hk1 Hk2 Hk3 Ht. induction g as [|c g IH].
  - apply search_posts_none. simpl. now rewrite Hk1.
  - pose proof Hg as Hg'. simpl in Hg'. apply andb_true_iff in Hg' as [Hc Hg'].
    change (String c g +:+ String k tail) with (String c (g +:+ String k tail)).
    cbn [search_posts].
    assert (match_posts_here (String c (g +:+ String k tail)) = None) as ->.
    { unfold match_posts_here.
      change (String c (g +:+ String k tail)) with (String c g +:+ String k tail).
      rewrite (span_app is_count_char (String c g) (String k tail) Hg)
        by (simpl; now rewrite Hk1).
      simpl. now rewrite Hk2, Hk3. }
    now apply IH.
Qed.

Lemma followers_step_nonneg (d : counts_dom) (data data' : counts) :
  0 <= followers data /\ 0 <= tweet_count data ->
  followers_step d data = Ok data' ->
  0 <= followers data' /\ 0 <= tweet_count data'.
Proof.
  unfold followers_step. intros [? ?].
  destruct (wait_for_element _); [|now intros [= <-]].
  destruct (handle_suffix _) as [v|] eqn:E; simpl; [|discriminate].
  intros [= <-]. simpl. split; [exact (handle_suffix_nonneg _ _ E) | done].
Qed.

Lemma tweets_step_nonneg (d : counts_dom) (data data' : counts) :
  0 <= followers data /\ 0 <= tweet_count data ->
  tweets_step d data = Ok data' ->
  0 <= followers data' /\ 0 <= tweet_count data'.
Proof.
  unfold tweets_step. intros [? ?].
  destruct (wait_for_element _); [|now intros [= <-]].
  destruct (search_posts _) as [g|]; [|now intros [= <-]].
  destruct (handle_suffix _) as [v|] eqn:E; simpl; [|discriminate].
  intros [= <-]. simpl. split; [done | exact (handle_suffix_nonneg _ _ E)].
Qed.

Lemma counts_nonneg (d : counts_dom) :
  0 <= followers (parse_followers_and_tweets d)
  /\ 0 <= tweet_count (parse_followers_and_tweets d).
Proof.
  unfold parse_followers_and_tweets.
  assert (0 <= followers {| followers := 0; tweet_count := 0 |}
          /\ 0 <= tweet_count {| followers := 0; tweet_count := 0 |}) as H0
    by (simpl; lia).
  destruct (followers_step d _) as [data1|] eqn:E1; [|exact H0].
  pose proof (followers_step_nonneg _ _ _ H0 E1) as H1.
  destruct (tweets_step d data1) as [data2|] eqn:E2; [|exact H1].
  exact (tweets_step_nonneg _ _ _ H1 E2).
Qed.

(** X14: the two counts returned by [parse_followers_and_tweets] are never
    negative, whatever the page shows and whichever call fails. *)
Theorem profile_counts_never_negative (d : counts_dom) :
  0 <= followers (parse_followers_and_tweets d)
  /\ 0 <= tweet_count (parse_followers_and_tweets d).
Proof. apply counts_nonneg. Qed.

(** X15: when the text found for the posts holds, after characters that
    are no digit, dot or comma, a run of digits, dots and commas followed
    by optional whitespace and the word "posts" in any case, and the
    followers were read without an exception, the number of posts is
    what [handle_suffix] makes of that run, and 0 when it raises. *)
Theorem posts_count_is_read (d : counts_dom) (data1 : counts)
    (pre g ws tail : string) :
  followers_step d {| followers := 0; tweet_count := 0 |} = Ok data1 ->
  tweets_wait d = Ok tt ->
  safe_get_text (tweets_text d) "0" = pre +:+ g +:+ ws +:+ tail ->
  forallb (fun c => negb (is_count_char c)) pre = true ->
  forallb is_count_char g = true -> is_empty g = false ->
  forallb is_space ws = true ->
  prefix_ignorecase "posts" tail = true ->
  tweet_count (parse_followers_and_tweets d)
  = match handle_suffix g with Ok v => v | Raise _ => 0 end
  /\ followers (parse_followers_and_tweets d) = followers data1.
Proof.
  intros Hf Hw Htext Hpre Hg Hne Hws Ht.
  unfold parse_followers_and_tweets. rewrite Hf.
  assert (tweet_count data1 = 0) as H0.
  { revert Hf. unfold followers_step. destruct (wait_for_element _); [|now intros [= <-]].
    destruct (handle_suffix _); simpl; [|discriminate]. now intros [= <-]. }
  unfold tweets_step. rewrite Hw, Htext. simpl.
  rewrite (search_posts_count _ _ _ _ Hpre Hg Hne Hws Ht).
  destruct (handle_suffix g); simpl; auto.
Qed.

Lemma posts_count_is_read_witness :
  tweet_count (parse_followers_and_tweets (Demo.counts_page "12.3K" "See 1,234 Posts"))
  = 1234.
Proof.
  apply (proj1 (posts_count_is_read (Demo.counts_page "12.3K" "See 1,234 Posts")
                  {| followers := 12300; tweet_count := 0 |}
                  "See " "1,234" " " "Posts"
                  eq_refl eq_refl eq_refl eq_refl eq_refl eq_refl eq_refl eq_refl)).
Defined.

(** X16: an abbreviated number of posts is not read.  When the run of
    digits, dots and commas is followed at once by a character that is
    neither whitespace nor a "p", such as the K of "12.3K posts", and no
    further digit, dot or comma follows, the pattern finds nothing and
    the number of posts stays 0. *)
Theorem abbreviated_posts_count_is_dropped (d : counts_dom)
    (pre g : string) (k : ascii) (tail : string) :
  safe_get_text (tweets_text d) "0" = pre +:+ g +:+ String k tail ->
  forallb (fun c => negb (is_count_char c)) pre = true ->
  forallb is_count_char g = true ->
  is_count_char k = false -> is_space k = false ->
  Ascii.eqb (lower_char k) "p" = false ->
  forallb (fun c => negb (is_count_char c)) tail = true ->
  tweet_count (parse_followers_and_tweets d) = 0.
Proof.
  intros Htext Hpre Hg Hk1 Hk2 Hk3 Ht.
  unfold parse_followers_and_tweets.
  destruct (followers_step d _) as [data1|] eqn:Hf; [|reflexivity].
  assert (tweet_count data1 = 0) as H0.
  { revert Hf. unfold followers_step. destruct (wait_for_element _); [|now intros [= <-]].
    destruct (handle_suffix _); simpl; [|discriminate]. now intros [= <-]. }
  unfold tweets_step. destruct (wait_for_element _); [|exact H0].
  rewrite Htext, (search_posts_skip _ _ Hpre).
  now rewrite (search_posts_blocked g k tail Hg Hk1 Hk2 Hk3 Ht).
Qed.

Lemma abbreviated_posts_count_is_dropped_witness :
  tweet_count (parse_followers_and_tweets (Demo.counts_page "12.3K" "12.3K posts")) = 0.
Proof.
  apply (abbreviated_posts_count_is_dropped
           (Demo.counts_page "12.3K" "12.3K posts") "" "12.3" "K" " posts");
    reflexivity.
Defined.

(** *** A followers text that cannot be read *)

Lemma rstrip_nonspace_app (a s' : string) :
  forallb (fun c => negb (is_space c)) a = true ->
  rstrip (a +:+ s') = a +:+ rstrip s'.
Proof.
  induction a as [|x a IH]; [reflexivity|]. simpl.
  intros [Hx Ha]%andb_true_iff. apply negb_true_iff in Hx.
  rewrite (IH Ha). destruct (a +:+ rstrip s'); now rewrite ?Hx.
Qed.

Lemma rstrip_stops (p : ascii -> bool) (s : string) :
  stops p s = true -> stops p (rstrip s) = true.
Proof.
  destruct s as [|c s]; simpl; [done|]. intros H.
  destruct (rstrip s); [destruct (is_space c)|]; simpl; done.
Qed.

Lemma remove_char_stops (p : ascii -> bool) (s : string) :
  stops p s = true -> stops (fun c => p c || Ascii.eqb c ",") s = true ->
  stops p (remove_char "," s) = true.
Proof.
  destruct s as [|c s]; simpl; [done|]. intros H1 H2.
  apply negb_true_iff in H2. apply orb_false_iff in H2 as [_ H2].
  rewrite H2. simpl. exact H1.
Qed.

Lemma dot_facts (c : ascii) :
  is_dot c = true ->
  is_num_char c = true /\ is_digit c = false /\ is_space c = false
  /\ Ascii.eqb c "," = false.
Proof. unfold is_dot. by_char' c. Qed.

Lemma of_str_dots (dots : string) :
  forallb is_dot dots = true -> is_empty dots = false ->
  Float64.of_str dots = Raise ValueError.
Proof.
  destruct dots as [|c fp]; [discriminate|]. simpl.
  intros [Hc Hfp]%andb_true_iff _. destruct (dot_facts c Hc) as (_ & Hd & _).
  unfold Float64.of_str. simpl. rewrite Hd.
  unfold is_dot in Hc. rewrite Hc. simpl.
  destruct fp as [|c' fp]; [reflexivity|]. simpl in *.
  apply andb_true_iff in Hfp as [Hc' _]. destruct (dot_facts c' Hc') as (_ & Hd' & _).
  now rewrite Hd'.
Qed.

Lemma handle_suffix_dots (dots rest : string) :
  forallb is_dot dots = true -> is_empty dots = false ->
  stops (fun c => is_num_char c || Ascii.eqb c ",") rest = true ->
  handle_suffix (dots +:+ rest) = Raise ValueError.
Proof.
  intros Hd Hne Hr. unfold handle_suffix.
  assert (stops is_num_char rest = true) as Hr'.
  { destruct rest as [|c r]; simpl in *; [done|].
    apply negb_true_iff in Hr. apply orb_false_iff in Hr as [-> _]. done. }
  assert (strip (remove_char "," (dots +:+ rest))
          = dots +:+ rstrip (remove_char "," rest)) as ->.
  { rewrite remove_char_app, (remove_char_absent "," dots).
    2:{ apply (forallb_impl is_dot); [|exact Hd].
        intros c Hc. destruct (dot_facts c Hc) as (_ & _ & _ & ->). done. }
    unfold strip. rewrite rstrip_nonspace_app.
    2:{ apply (forallb_impl is_dot); [|exact Hd].
        intros c Hc. destruct (dot_facts c Hc) as (_ & _ & -> & _). done. }
    destruct dots as [|c dots]; [discriminate|]. simpl in Hd.
    apply andb_true_iff in Hd as [Hc _].
    destruct (dot_facts c Hc) as (_ & _ & Hs & _). simpl. now rewrite Hs. }
  assert (forallb is_num_char dots = true) as Hn.
  { apply (forallb_impl is_dot); [|exact Hd].
    intros c Hc. now destruct (dot_facts c Hc) as (-> & _). }
  assert (exists g2, search_suffix (dots +:+ rstrip (remove_char "," rest))
                     = Some (dots, g2)) as [g2 ->].
  { unfold match_suffix_here.
    pose proof (rstrip_stops _ _ (remove_char_stops _ _ Hr' Hr)) as Hst.
    destruct (span is_space (rstrip (remove_char "," rest))) as [w r'] eqn:Es.
    destruct r' as [|k r'].
    - exists None. apply search_suffix_here. unfold match_suffix_here.
      now rewrite (span_app _ _ _ Hn Hst), Hne, Es.
    - exists (if is_KMB k then Some (String k EmptyString) else None).
      apply search_suffix_here. unfold match_suffix_here.
      rewrite (span_app _ _ _ Hn Hst), Hne, Es. now destruct (is_KMB k). }
  now rewrite (of_str_dots dots Hd Hne).
Qed.

(** X17: a followers text that cannot be read costs both counts.  When
    [handle_suffix] raises on it, which it does on every text that
    begins with dots not followed by a digit or a comma (say "..."), the
    function returns 0 followers and 0 posts and does not look for the
    number of posts at all. *)
Theorem unreadable_followers_cost_both_counts :
  (forall (d : counts_dom) (e : exn),
      followers_wait d = Ok tt ->
      handle_suffix (safe_get_text (followers_text d) "0") = Raise e ->
      parse_followers_and_tweets d = {| followers := 0; tweet_count := 0 |})
  /\ (forall (d : counts_dom) (dots rest : string),
         followers_wait d = Ok tt ->
         safe_get_text (followers_text d) "0" = dots +:+ rest ->
         forallb is_dot dots = true -> is_empty dots = false ->
         stops (fun c => is_num_char c || Ascii.eqb c ",") rest = true ->
         parse_followers_and_tweets d = {| followers := 0; tweet_count := 0 |}).
Proof.
  assert (forall (d : counts_dom) (e : exn),
             followers_wait d = Ok tt ->
             handle_suffix (safe_get_text (followers_text d) "0") = Raise e ->
             parse_followers_and_tweets d = {| followers := 0; tweet_count := 0 |})
    as H.
  { intros d e Hw He. unfold parse_followers_and_tweets, followers_step.
    now rewrite Hw, He. }
  split; [exact H|].
  intros d dots rest Hw Htext Hd Hne Hr. apply (H d ValueError Hw).
  rewrite Htext. now apply handle_suffix_dots.
Qed.

Lemma unreadable_followers_cost_both_counts_witness :
  parse_followers_and_tweets (Demo.counts_page "..." "12 posts")
  = {| followers := 0; tweet_count := 0 |}.
Proof.
  apply (proj2 unreadable_followers_cost_both_counts
           (Demo.counts_page "..." "12 posts") "..." "");
    reflexivity.
Defined.

End Counts.

(** ** The profile *)

Section Handle.

Import PyStr.

#[local] Arguments String.append !s1 s2 : simpl nomatch.

Lemma rstrip_char_all (c : ascii) (s : string) :
  forallb (fun a => Ascii.eqb a c) s = true -> rstrip_char c s = EmptyString.
Proof.
  induction s as [|x s IH]; [reflexivity|]. simpl.
  intros [Hx Hs]%andb_true_iff. now rewrite (IH Hs), Hx.
Qed.

Lemma rstrip_char_none (c : ascii) (s : string) :
  forallb (fun a => negb (Ascii.eqb a c)) s = true -> rstrip_char c s = s.
Proof.
  induction s as [|x s IH]; [reflexivity|]. simpl.
  intros [Hx Hs]%andb_true_iff. apply negb_true_iff in Hx.
  rewrite (IH Hs). destruct s; now rewrite ?Hx.
Qed.

Lemma rstrip_char_app (c : ascii) (a s' : string) :
  is_empty (rstrip_char c s') = false ->
  rstrip_char c (a +:+ s') = a +:+ rstrip_char c s'.
Proof.
  intros H. induction a as [|x a IH]; simpl; [reflexivity|].
  rewrite IH. destruct (a +:+ rstrip_char c s') eqn:E; [|reflexivity].
  destruct a; simpl in E; [|discriminate]. now rewrite E in H.
Qed.

Lemma rstrip_char_app_sep (c : ascii) (a sl : string) :
  forallb (fun x => Ascii.eqb x c) sl = true ->
  rstrip_char c (a +:+ sl) = rstrip_char c a.
Proof.
  intros H. induction a as [|x a IH]; simpl; [now apply rstrip_char_all|].
  now rewrite IH.
Qed.

Lemma split_char_nonempty (c : ascii) (s : string) :
  exists (h : string) (t : list string), split_char c s = h :: t.
Proof.
  induction s as [|x s (h & t & IH)]; simpl; [eauto|].
  destruct (Ascii.eqb x c); [eauto|]. rewrite IH. eauto.
Qed.

Lemma split_char_app (c : ascii) (a s' : string) :
  split_char c (a +:+ String c s') = split_char c a ++ split_char c s'.
Proof.
  induction a as [|x a IH]; simpl.
  - now rewrite Ascii.eqb_refl.
  - destruct (Ascii.eqb x c); rewrite IH; [reflexivity|].
    destruct (split_char_nonempty c a) as (h & t & ->). reflexivity.
Qed.

Lemma split_char_none (c : ascii) (s : string) :
  forallb (fun a => negb (Ascii.eqb a c)) s = true -> split_char c s = [s].
Proof.
  induction s as [|x s IH]; [reflexivity|]. simpl.
  intros [Hx Hs]%andb_true_iff. apply negb_true_iff in Hx.
  now rewrite Hx, (IH Hs).
Qed.

Lemma split_char_parts (c : ascii) (s x : string) :
  x ∈ split_char c s -> forallb (fun a => negb (Ascii.eqb a c)) x = true.
Proof.
  revert x. induction s as [|a s IH]; simpl; intros x.
  - now intros ->%list_elem_of_singleton.
  - destruct (Ascii.eqb a c) eqn:E.
    + intros [->|H]%elem_of_cons; [reflexivity | now apply IH].
    + destruct (split_char_nonempty c s) as (h & t & Hs). rewrite Hs in *.
      intros [->|H]%elem_of_cons.
      * simpl. rewrite E. simpl. apply IH. now left.
      * apply IH. now right.
Qed.

(** X18: the handle is "@" and the last segment of the address, trailing
    slashes apart: for an address that ends in a slash, a name without
    slash that is not empty, and any number of slashes, it is "@" and
    that name; and a handle never holds a slash. *)
Theorem handle_is_last_segment :
  (forall base name slashes : string,
      is_empty name = false ->
      forallb (fun a => negb (Ascii.eqb a "/")) name = true ->
      forallb (fun a => Ascii.eqb a "/") slashes = true ->
      handle_of_url (base +:+ String "/" name +:+ slashes) = String "@" name)
  /\ (forall url : string,
         exists h : string,
           handle_of_url url = String "@" h
           /\ forallb (fun a => negb (Ascii.eqb a "/")) h = true).
Proof.
  split.
  - intros base name slashes Hne Hname Hsl. unfold handle_of_url.
    replace (base +:+ String "/" name +:+ slashes)
      with ((base +:+ String "/" name) +:+ slashes)
      by (rewrite append_assoc; reflexivity).
    rewrite (rstrip_char_app_sep _ _ _ Hsl).
    assert (rstrip_char "/" (String "/" name) = String "/" name) as Hkeep.
    { simpl. rewrite (rstrip_char_none _ _ Hname). now destruct name. }
    rewrite rstrip_char_app by now rewrite Hkeep.
    rewrite Hkeep, split_char_app, (split_char_none _ _ Hname).
    now rewrite last_snoc.
  - intros url. unfold handle_of_url.
    destruct (last (split_char "/" (rstrip_char "/" url))) as [h|] eqn:E.
    + exists h. split; [reflexivity|].
      apply (split_char_parts "/" (rstrip_char "/" url)).
      now apply last_Some_elem_of.
    + now exists EmptyString.
Qed.

Lemma handle_is_last_segment_witness :
  handle_of_url "https://x.com/alice//" = "@alice".
Proof.
  apply (proj1 handle_is_last_segment "https://x.com" "alice" "//"); reflexivity.
Defined.

End Handle.

Section ProfileFacts.

Variable hash : string -> Z.
Variable depth : nat.

Lemma connect_to_browser_pages (pages : list page) (p : page)
    (others : list (list page)) :
  connect_to_browser (Ok ((pages ++ [p]) :: others))
  = (true, {| browser := Some ((pages ++ [p]) :: others);
              context := Some (pages ++ [p]);
              current_page := Some p |}).
Proof. unfold connect_to_browser. now rewrite last_snoc. Qed.

Lemma connect_to_browser_true (c : result (list (list page))) :
  fst (connect_to_browser c) = true ->
  exists (pages : list page) (p : page) (others : list (list page)),
    c = Ok ((pages ++ [p]) :: others).
Proof.
  unfold connect_to_browser. destruct c as [[|ctx others]|]; simpl; try discriminate.
  destruct (last ctx) as [p|] eqn:E; simpl; [|discriminate].
  intros _. apply last_Some in E as [pages ->]. now exists pages, p, others.
Qed.

(** The ways through [scrape_profile]. *)
Lemma scrape_profile_cases (w : world) (self_ : scraper) :
  (fst (connect_to_browser (cdp w)) = false
   /\ scrape_profile hash depth w self_ = (Returned None, [], self_))
  \/ exists (pages : list page) (p : page) (others : list (list page)),
       cdp w = Ok ((pages ++ [p]) :: others)
       /\ ((answered (account_name_of (on_page w p)) = false
            /\ scrape_profile hash depth w self_
               = (finally_close w (Returned None) [], self_))
           \/ (exists st : run,
                 first_tweet (on_page w p) = Ok tt
                 /\ load_and_parse_tweets hash depth (scrolling (on_page w p)) self_
                    = (st, None)
                 /\ scrape_profile hash depth w self_ = (Collecting, [], self st))
           \/ exists (name : field) (tweets_list : list tweet_data) (self' : scraper),
                account_name_of (on_page w p) = Ok name
                /\ ((wait_for_element (first_tweet (on_page w p)) = false
                     /\ tweets_list = [] /\ self' = self_)
                    \/ exists (st : run) (r : stop),
                         first_tweet (on_page w p) = Ok tt
                         /\ load_and_parse_tweets hash depth
                              (scrolling (on_page w p)) self_ = (st, Some r)
                         /\ tweets_list = all_tweets st /\ self' = self st)
                /\ let info :=
                     {| account_name := name;
                        handle := if PyStr.is_empty (url (on_page w p)) then NotSpecified
                                  else Text (handle_of_url (url (on_page w p)));
                        followers_count :=
                          followers (parse_followers_and_tweets
                                       (profile_counts (on_page w p)));
                        posts_count :=
                          tweet_count (parse_followers_and_tweets
                                         (profile_counts (on_page w p)));
                        posts := tweets_list |} in
                   (answered (save w) = false
                    /\ scrape_profile hash depth w self_
                       = (finally_close w (Returned None) [], self'))
                   \/ (save w = Ok tt
                       /\ scrape_profile hash depth w self_
                          = (finally_close w (Returned (Some info)) [WriteJson info],
                             self'))).
Proof.
  destruct (fst (connect_to_browser (cdp w))) eqn:C.
  2:{ left. split; [done|]. unfold scrape_profile.
      destruct (connect_to_browser (cdp w)) as [[] conn]; [discriminate|done]. }
  right. destruct (connect_to_browser_true _ C) as (pages & p & others & Hc).
  exists pages, p, others. split; [exact Hc|].
  unfold scrape_profile. rewrite Hc, connect_to_browser_pages.
  destruct (account_name_of (on_page w p)) as [name|] eqn:N; [|left; done].
  right. cbv zeta.
  destruct (first_tweet (on_page w p)) as [[]|] eqn:F; simpl.
  - destruct (load_and_parse_tweets hash depth _ self_) as [st [r|]] eqn:L.
    + right. exists name, (all_tweets st), (self st). split; [done|].
      split; [right; now exists st, r|].
      destruct (save w) as [[]|]; [right | left]; done.
    + left. now exists st.
  - right. exists name, [], self_. split; [done|]. split; [now left|].
    destruct (save w) as [[]|]; [right | left]; done.
Qed.

(** X19: [scrape_profile] works on the last page of the first context of
    the browser and on no other: what the other pages would answer has
    no part in how the call ends, in what it writes, or in the state it
    leaves. *)
Theorem scrape_profile_reads_last_page (w w' : world) (self_ : scraper)
    (pages : list page) (p : page) (others : list (list page)) :
  cdp w = Ok ((pages ++ [p]) :: others) ->
  cdp w' = cdp w -> save w' = save w -> close w' = close w ->
  on_page w' p = on_page w p ->
  scrape_profile hash depth w' self_ = scrape_profile hash depth w self_.
Proof.
  intros Hc Hc' Hs Hcl Hp. unfold scrape_profile, finally_close.
  now rewrite Hc', Hc, connect_to_browser_pages, Hp, Hs, Hcl.
Qed.

(** X20: the browser is closed exactly on the ways that follow a
    successful connect.  When [connect_to_browser] fails the call returns
    the empty dict and never calls [close], also when the browser itself
    was reached (no context, or a first context without page); when it
    succeeds and the call ends, [close] is its last act and is called
    once. *)
Theorem browser_closed_after_connect (w : world) (self_ : scraper) :
  (fst (connect_to_browser (cdp w)) = false ->
   scrape_profile hash depth w self_ = (Returned None, [], self_))
  /\ (fst (connect_to_browser (cdp w)) = true ->
      (scrape_profile hash depth w self_).1.1 <> Collecting ->
      exists before_ : list effect,
        (scrape_profile hash depth w self_).1.2 = before_ ++ [CloseBrowser]
        /\ CloseBrowser ∉ before_).
Proof.
  split.
  - intros C. destruct (scrape_profile_cases w self_) as [[_ H]|H]; [exact H|].
    destruct H as (pages & p & others & Hc & _).
    rewrite Hc, connect_to_browser_pages in C. discriminate.
  - intros C. destruct (scrape_profile_cases w self_) as [[C' _]|H]; [congruence|].
    destruct H as (pages & p & others & _ & [[_ ->]|[(st & _ & _ & ->)|H]]).
    + intros _. exists []. unfold finally_close.
      destruct (close w); simpl; split; try done; apply not_elem_of_nil.
    + simpl. congruence.
    + destruct H as (name & tl & self' & _ & _ & [[_ ->]|[_ ->]]); intros _.
      * exists []. unfold finally_close.
        destruct (close w); simpl; split; try done; apply not_elem_of_nil.
      * eexists [WriteJson _]. unfold finally_close.
        destruct (close w); simpl; (split; [done|]);
          intros [=]%list_elem_of_singleton.
Qed.

(** X21: a profile is returned only after it was written: when
    [scrape_profile] returns a profile, writing the file and closing the
    browser both succeeded, and the call wrote that very profile and
    then closed the browser; a failure to write leaves the caller with
    the empty dict. *)
Theorem returned_profile_was_written (w : world) (self_ self' : scraper)
    (p : profile) (effects : list effect) :
  scrape_profile hash depth w self_ = (Returned (Some p), effects, self') ->
  effects = [WriteJson p; CloseBrowser] /\ save w = Ok tt /\ close w = Ok tt.
Proof.
  destruct (scrape_profile_cases w self_) as [[_ ->]|H]; [discriminate|].
  destruct H as (pages & pg & others & _ & [[_ ->]|[(st & _ & _ & ->)|H]]).
  - unfold finally_close. destruct (close w); discriminate.
  - discriminate.
  - destruct H as (name & tl & s' & _ & _ & [[_ ->]|[Hs ->]]);
      unfold finally_close; destruct (close w) as [[]|]; try discriminate.
    now intros [= <- <- <-].
Qed.

Lemma parse_tweet_interactions (tweet : tweet_dom) (t : tweet_data) :
  parse_tweet hash depth tweet = Some t ->
  interactions t = parse_engagement depth (engagement tweet) 0.
Proof.
  unfold parse_tweet, build_tweet.
  destruct (tweet_id_of hash tweet) as [i|]; simpl; [|discriminate].
  destruct (tweet_text tweet); simpl; [|discriminate].
  destruct (time_datetime tweet); simpl; [|discriminate].
  destruct (get_tweet_type tweet); simpl; [|discriminate].
  now intros [= <-].
Qed.

(** X22: every profile returned by [scrape_profile] is well formed: the
    two counts are not negative, the identifiers of its posts are
    pairwise distinct, not empty and were not in the ledger of the
    scraper before the call, the metrics of every post are not negative,
    and the ledger of the scraper after the call is the one before plus
    those identifiers. *)
Theorem returned_profile_well_formed (w : world) (self_ self' : scraper)
    (p : profile) (effects : list effect) :
  scrape_profile hash depth w self_ = (Returned (Some p), effects, self') ->
  0 <= followers_count p /\ 0 <= posts_count p
  /\ NoDup (id <$> posts p)
  /\ (forall t : tweet_data,
         t ∈ posts p ->
         PyStr.is_empty (id t) = false /\ nonneg (interactions t)
         /\ id t ∉ processed_tweets self_)
  /\ processed_tweets self'
     = processed_tweets self_ ∪ list_to_set (id <$> posts p).
Proof.
  destruct (scrape_profile_cases w self_) as [[_ ->]|H]; [discriminate|].
  destruct H as (pages & pg & others & _ & [[_ ->]|[(st & _ & _ & ->)|H]]).
  - unfold finally_close. destruct (close w); discriminate.
  - discriminate.
  - destruct H as (name & tl & s' & _ & Hposts & [[_ ->]|[_ ->]]);
      unfold finally_close; destruct (close w) as [[]|]; try discriminate.
    intros [= <- <- <-]. simpl.
    destruct (counts_nonneg (profile_counts (on_page w pg))) as [? ?].
    split; [done|]. split; [done|].
    destruct Hposts as [(_ & -> & ->)|(st & r & _ & L & -> & ->)].
    + split; [constructor|]. split; [|set_solver].
      intros t Ht. now apply not_elem_of_nil in Ht.
    + pose proof (run_collected hash depth (scrolling (on_page w pg)) self_)
        as (HL & HN & HD).
      rewrite L in HL, HN, HD. simpl in HL, HN, HD.
      split; [exact HN|]. split; [|exact HL].
      intros t Ht. split; [|split].
      * pose proof (loop_elem hash depth (scrolling (on_page w pg))
                      {| self := self_; all_tweets := []; calls := [] |} t) as Hel.
        unfold load_and_parse_tweets in L. rewrite L in Hel.
        destruct (Hel Ht) as [Hn|(it & b & a & tw & _ & _ & _ & _ & _ & Hp)];
          [now apply not_elem_of_nil in Hn|].
        exact (parse_tweet_id_not_empty hash depth _ _ Hp).
      * pose proof (loop_elem hash depth (scrolling (on_page w pg))
                      {| self := self_; all_tweets := []; calls := [] |} t) as Hel.
        unfold load_and_parse_tweets in L. rewrite L in Hel.
        destruct (Hel Ht) as [Hn|(it & b & a & tw & _ & _ & _ & _ & _ & Hp)];
          [now apply not_elem_of_nil in Hn|].
        rewrite (parse_tweet_interactions _ _ Hp). apply parse_engagement_nonneg.
      * apply HD. now apply list_elem_of_fmap_2.
Qed.

(** X23: an interrupt does not cost the profile.  When the flag is found
    set at the top of the pass that follows [its], and the rest of the
    call goes well, [scrape_profile] returns and writes a profile whose
    posts are the records collected through [its]. *)
Theorem interrupted_scrape_keeps_records (w : world) (self_ : scraper)
    (pages : list page) (p : page) (others : list (list page))
    (name : field) (its : list iteration) (it : iteration)
    (rest : list iteration) (st' : run) :
  cdp w = Ok ((pages ++ [p]) :: others) ->
  account_name_of (on_page w p) = Ok name ->
  first_tweet (on_page w p) = Ok tt ->
  scrolling (on_page w p) = its ++ it :: rest ->
  load_and_parse_tweets hash depth its self_ = (st', None) ->
  sigint it = true ->
  save w = Ok tt -> close w = Ok tt ->
  exists info : profile,
    scrape_profile hash depth w self_
    = (Returned (Some info), [WriteJson info; CloseBrowser],
       exit_gracefully (self st'))
    /\ posts info = all_tweets st'
    /\ account_name info = name.
Proof.
  intros Hc Hn Hf Hs Hl Hi Hsave Hclose.
  unfold scrape_profile, finally_close.
  rewrite Hc, connect_to_browser_pages, Hn, Hf, Hs, Hsave, Hclose. simpl.
  unfold load_and_parse_tweets in *. rewrite (loop_app hash depth _ _ _ _ Hl).
  cbn [loop]. unfold iterate, deliver. rewrite Hi. simpl.
  eexists. split; [reflexivity|]. done.
Qed.

End ProfileFacts.

Lemma scrape_profile_reads_last_page_witness :
  scrape_profile Sample.hash 3
    {| cdp := cdp Demo.session;
       on_page := fun q => if (q =? 5)%nat then Demo.alice
                           else {| user_name := Raise PlaywrightError;
                                   title := Raise PlaywrightError;
                                   url := "";
                                   profile_counts := Demo.counts_page "" "";
                                   first_tweet := Raise PlaywrightError;
                                   scrolling := [] |};
       save := save Demo.session;
       close := close Demo.session |} init
  = scrape_profile Sample.hash 3 Demo.session init.
Proof.
  apply (scrape_profile_reads_last_page Sample.hash 3 Demo.session _ init
           [3%nat] 5%nat [[7%nat]]);
    reflexivity.
Defined.

Lemma browser_closed_after_connect_witness :
  scrape_profile Sample.hash 3
    {| cdp := Ok [[]; [7%nat]]; on_page := fun _ => Demo.alice;
       save := Ok tt; close := Ok tt |} init
  = (Returned None, [], init).
Proof.
  apply (proj1 (browser_closed_after_connect Sample.hash 3 _ init)). reflexivity.
Defined.

Lemma returned_profile_was_written_witness :
  save Demo.session = Ok tt /\ close Demo.session = Ok tt.
Proof.
  destruct (returned_profile_was_written Sample.hash 3 Demo.session init
              (scrape_profile Sample.hash 3 Demo.session init).2
              {| account_name := Text "Alice"; handle := Text "@alice";
                 followers_count := 1234; posts_count := 56;
                 posts := all_tweets
                            (load_and_parse_tweets Sample.hash 3 Sample.feed init).1 |}
              (scrape_profile Sample.hash 3 Demo.session init).1.2)
    as (_ & H1 & H2); [reflexivity | now split].
Defined.

Lemma returned_profile_well_formed_witness :
  NoDup (id <$> all_tweets (load_and_parse_tweets Sample.hash 3 Sample.feed init).1).
Proof.
  destruct (returned_profile_well_formed Sample.hash 3 Demo.session init
              (scrape_profile Sample.hash 3 Demo.session init).2
              {| account_name := Text "Alice"; handle := Text "@alice";
                 followers_count := 1234; posts_count := 56;
                 posts := all_tweets
                            (load_and_parse_tweets Sample.hash 3 Sample.feed init).1 |}
              (scrape_profile Sample.hash 3 Demo.session init).1.2)
    as (_ & _ & H & _); [reflexivity | exact H].
Defined.

Lemma interrupted_scrape_keeps_records_witness :
  exists info : profile,
    scrape_profile Sample.hash 3
      {| cdp := Ok [[5%nat]];
         on_page := fun _ =>
           {| user_name := Ok (Some "Alice"); title := Ok "";
              url := "https://x.com/alice";
              profile_counts := Demo.counts_page "7" "8 posts";
              first_tweet := Ok tt;
              scrolling := [Sample.pass [] [0%nat]] ++ Sample.interrupted :: Sample.feed |};
         save := Ok tt; close := Ok tt |} init
    = (Returned (Some info), [WriteJson info; CloseBrowser],
       exit_gracefully
         (self (load_and_parse_tweets Sample.hash 3 [Sample.pass [] [0%nat]] init).1))
    /\ posts info
       = all_tweets (load_and_parse_tweets Sample.hash 3 [Sample.pass [] [0%nat]] init).1
    /\ account_name info = Text "Alice".
Proof.
  apply (interrupted_scrape_keeps_records Sample.hash 3 _ init
           [] 5%nat [] (Text "Alice") [Sample.pass [] [0%nat]] Sample.interrupted
           Sample.feed);
    reflexivity.
Defined.

(** ** Two more ways out *)

Section WaysOut.

Variable hash : string -> Z.
Variable depth : nat.

(** X24: an exception of the page ends the call and costs no record.
    When a call of the pass that follows [its] raises, the loop is left
    through the [except] clause, and the records returned and the ledger
    are those held after [its]. *)
Theorem failed_pass_keeps_records (its : list iteration) (it : iteration)
    (rest : list iteration) (st st' : run) :
  loop hash depth its st = (st', None) ->
  should_exit (self (deliver it st')) = false ->
  answered (before it) && answered (scrolled it)
  && answered (waited it) && answered (after it) = false ->
  exists final : run,
    loop hash depth (its ++ it :: rest) st = (final, Some Failed)
    /\ all_tweets final = all_tweets st'
    /\ processed_tweets (self final) = processed_tweets (self st').
Proof.
  intros Hrun F Hraise. rewrite (loop_app hash depth _ _ _ _ Hrun). cbn [loop].
  destruct (iterate_cases hash depth it st')
    as [[F' _]|[(_ & tail & st1 & -> & Ha & Hp & _)
               |(_ & b & a & Hb & Hs & Hw & Haf & _)]].
  - congruence.
  - now exists st1.
  - rewrite Hb, Hs, Hw, Haf in Hraise. discriminate.
Qed.

End WaysOut.

Lemma attempt_without_label (d : engagement_dom) :
  found (group_label d) = false ->
  Repost (fst (attempt d)) = 0 /\ Like (fst (attempt d)) = 0.
Proof.
  unfold attempt, label_step.
  destruct (group_label d) as [[x|]|]; simpl; [discriminate| |done]. intros _.
  destruct (views_step d zero_metrics) as [r2|] eqn:V; simpl; [|done].
  destruct (views_step_keeps _ _ _ V) as (_ & H1 & H2 & _).
  destruct (reply_step d r2) as [r3|] eqn:R; simpl; [|done].
  destruct (reply_step_keeps _ _ _ R) as (H3 & H4 & _).
  simpl in H1, H2. split; congruence.
Qed.

(** X25: reposts and likes have no source but the grouped label.  When no
    attempt finds the grouped block, whether the lookup returns nothing
    or raises, [parse_engagement] returns 0 reposts and 0 likes, whatever
    the views link and the reply button show. *)
Theorem reposts_and_likes_need_the_label (depth : nat)
    (dom : nat -> engagement_dom) (a : nat) :
  (forall j : nat, found (group_label (dom j)) = false) ->
  Repost (parse_engagement depth dom a) = 0
  /\ Like (parse_engagement depth dom a) = 0.
Proof.
  intros H. revert a. induction depth as [|n IH]; intros a; [done|].
  rewrite parse_engagement_step. destruct (quiet (dom a)); [apply IH|].
  apply attempt_without_label, H.
Qed.

Lemma failed_pass_keeps_records_witness :
  exists final : run,
    loop Sample.hash 3
      ([Sample.pass [] [0%nat; 1%nat]]
         ++ {| sigint := false; before := Ok [0%nat; 1%nat];
               scrolled := Raise PlaywrightError; waited := Ok tt;
               after := Ok [0%nat; 1%nat; 2%nat]; dom := Sample.page |}
         :: Sample.feed) Sample.start
    = (final, Some Failed)
    /\ all_tweets final
       = all_tweets (loop Sample.hash 3 [Sample.pass [] [0%nat; 1%nat]] Sample.start).1
    /\ processed_tweets (self final)
       = processed_tweets
           (self (loop Sample.hash 3 [Sample.pass [] [0%nat; 1%nat]] Sample.start).1).
Proof.
  apply (failed_pass_keeps_records Sample.hash 3
           [Sample.pass [] [0%nat; 1%nat]] _ Sample.feed Sample.start
           (loop Sample.hash 3 [Sample.pass [] [0%nat; 1%nat]] Sample.start).1);
    reflexivity.
Defined.

Lemma reposts_and_likes_need_the_label_witness :
  Repost (parse_engagement 2
            (fun _ => {| group_label := Ok None; views_link := Ok (Some "1.5K");
                         reply_button := Ok (Some "4") |}) 0) = 0
  /\ Like (parse_engagement 2
             (fun _ => {| group_label := Ok None; views_link := Ok (Some "1.5K");
                          reply_button := Ok (Some "4") |}) 0) = 0.
Proof.
  apply (reposts_and_likes_need_the_label 2
           (fun _ => {| group_label := Ok None; views_link := Ok (Some "1.5K");
                        reply_button := Ok (Some "4") |}) 0%nat).
  intros j. reflexivity.
Defined.

(** ** Posts that share a content hash *)

Section ContentHash.

Variable hash : string -> Z.
Variable depth : nat.

(** The records of the output that carry the identifier [i]. *)
#[local] Notation "'with_id' i l" := (filter (fun t : tweet_data => id t = i) l)
  (at level 10, i at level 9, l at level 9, only parsing).

Lemma tweet_id_fallback (tweet : tweet_dom) (html : string) :
  data_tweet_id tweet = Ok None -> inner_html tweet = Ok html ->
  tweet_id_of hash tweet = Ok (PyStr.str_of_int (hash html)).
Proof.
  intros Hid Hh. unfold tweet_id_of, fallback_id. rewrite Hid. simpl.
  now rewrite Hh.
Qed.

Lemma parse_tweet_builds (tweet : tweet_dom) (html : string) :
  data_tweet_id tweet = Ok None -> inner_html tweet = Ok html ->
  answered (tweet_text tweet) && answered (time_datetime tweet)
  && answered (get_tweet_type tweet) = true ->
  exists d : tweet_data,
    parse_tweet hash depth tweet = Some d
    /\ id d = PyStr.str_of_int (hash html).
Proof.
  intros Hid Hh Hb. unfold parse_tweet, build_tweet.
  rewrite (tweet_id_fallback _ _ Hid Hh). simpl.
  destruct (tweet_text tweet); simpl in *; [|discriminate].
  destruct (time_datetime tweet); simpl in *; [|discriminate].
  destruct (get_tweet_type tweet); simpl in *; [|discriminate].
  eexists. split; reflexivity.
Qed.

Lemma emit_other (i : string) (o : option tweet_data) (st : run) :
  (forall t : tweet_data, o = Some t -> id t <> i) ->
  with_id i (all_tweets (emit o st)) = with_id i (all_tweets st)
  /\ (i ∉ processed_tweets (self st) -> i ∉ processed_tweets (self (emit o st))).
Proof.
  intros Hne. unfold emit. destruct o as [t|]; [|done].
  specialize (Hne t eq_refl).
  destruct (negb _ && bool_decide _); simpl; [|done]. split.
  - rewrite filter_app, filter_cons_False by done. now rewrite filter_nil, app_nil_r.
  - set_solver.
Qed.

Lemma process_other (i : string) (dom_ : node -> tweet_dom) (l : list node)
    (st : run) :
  (forall (tw : node) (t : tweet_data),
      tw ∈ l -> parse_tweet hash depth (dom_ tw) = Some t -> id t <> i) ->
  with_id i (all_tweets (process hash depth dom_ l st)) = with_id i (all_tweets st)
  /\ (i ∉ processed_tweets (self st) ->
      i ∉ processed_tweets (self (process hash depth dom_ l st))).
Proof.
  unfold process. revert st. induction l as [|x l IH]; simpl; intros st H; [done|].
  destruct (emit_other i (parse_tweet hash depth (dom_ x)) st) as [E1 E2].
  { intros t Ht. apply (H x); [left | exact Ht]. }
  destruct (IH (emit (parse_tweet hash depth (dom_ x)) st)) as [I1 I2].
  { intros tw t Hin. apply H. now right. }
  split; [now rewrite I1 | auto].
Qed.

Lemma emit_ledgered (i : string) (o : option tweet_data) (st : run) :
  i ∈ processed_tweets (self st) ->
  with_id i (all_tweets (emit o st)) = with_id i (all_tweets st).
Proof.
  intros Hin. destruct o as [t|]; [|done].
  destruct (decide (id t = i)) as [E|E].
  - rewrite emit_known; [done | now rewrite E].
  - apply emit_other. now intros t' [= <-].
Qed.

Lemma process_ledgered (i : string) (dom_ : node -> tweet_dom) (l : list node)
    (st : run) :
  i ∈ processed_tweets (self st) ->
  with_id i (all_tweets (process hash depth dom_ l st)) = with_id i (all_tweets st).
Proof.
  unfold process. revert st. induction l as [|x l IH]; simpl; intros st H; [done|].
  rewrite IH; [now apply emit_ledgered|]. now apply emit_mono.
Qed.

Lemma iterate_ledgered (i : string) (it : iteration) (st : run) :
  i ∈ processed_tweets (self st) ->
  with_id i (all_tweets (iterate hash depth it st).1) = with_id i (all_tweets st).
Proof.
  intros Hin. destruct (deliver_frame it st) as (Ha & _ & Hl).
  destruct (iterate_cases hash depth it st)
    as [[_ ->]|[(_ & tail & st1 & -> & H1 & _)|(_ & b & a & _ & _ & _ & _ & ->)]];
    simpl.
  - now rewrite Ha.
  - now rewrite H1.
  - rewrite process_ledgered; simpl; [now rewrite Ha | now rewrite Hl].
Qed.

Lemma loop_ledgered (i : string) (env : list iteration) (st : run) :
  i ∈ processed_tweets (self st) ->
  with_id i (all_tweets (loop hash depth env st).1) = with_id i (all_tweets st).
Proof.
  revert st. induction env as [|it env IH]; simpl; intros st Hin; [done|].
  pose proof (iterate_ledgered i it st Hin) as H.
  pose proof (iterate_mono hash depth it st) as Hm.
  destruct (iterate hash depth it st) as [st1 [r|]]; simpl in *; [exact H|].
  rewrite IH; [exact H | now apply Hm].
Qed.

Lemma emit_first (d : tweet_data) (st : run) :
  PyStr.is_empty (id d) = false ->
  id d ∉ processed_tweets (self st) ->
  all_tweets (emit (Some d) st) = all_tweets st ++ [d]
  /\ id d ∈ processed_tweets (self (emit (Some d) st)).
Proof.
  intros Hne Hfresh. unfold emit. rewrite Hne. simpl.
  rewrite bool_decide_eq_true_2 by done. simpl. split; [done | set_solver].
Qed.

Lemma process_app (dom_ : node -> tweet_dom) (l k : list node) (st : run) :
  process hash depth dom_ (l ++ k) st
  = process hash depth dom_ k (process hash depth dom_ l st).
Proof. unfold process. apply fold_left_app. Qed.

(** C10: two nodes without the identifier attribute and with the same
    inner markup get the same identifier, the decimal text of the hash
    of that markup, and, when the lookups for text, time and type
    answer, [parse_tweet] builds a record with that identifier for each.
    In a run, at the pass in which the first of them appears (the
    identifier not yet in the ledger, no earlier node of the pass with
    it), the record of the first is appended and the second is dropped:
    the output of the run, whatever follows, holds the record of the
    first and no other with that identifier.  In any state whose ledger
    holds the identifier the second leaves no trace, and no run returns
    two records with it. *)
Theorem content_hash_collision (n1 n2 : tweet_dom) (html : string) :
  data_tweet_id n1 = Ok None -> data_tweet_id n2 = Ok None ->
  inner_html n1 = Ok html -> inner_html n2 = Ok html ->
  (tweet_id_of hash n1 = Ok (PyStr.str_of_int (hash html))
   /\ tweet_id_of hash n2 = Ok (PyStr.str_of_int (hash html)))
  /\ (forall st : run,
         PyStr.str_of_int (hash html) ∈ processed_tweets (self st) ->
         emit (parse_tweet hash depth n2) st = st)
  /\ (forall (env : list iteration) (self_ : scraper),
         (length (with_id (PyStr.str_of_int (hash html))
                    (all_tweets (load_and_parse_tweets hash depth env self_).1))
          <= 1)%nat)
  /\ (answered (tweet_text n1) && answered (time_datetime n1)
      && answered (get_tweet_type n1) = true ->
      answered (tweet_text n2) && answered (time_datetime n2)
      && answered (get_tweet_type n2) = true ->
      exists d1 d2 : tweet_data,
        parse_tweet hash depth n1 = Some d1
        /\ parse_tweet hash depth n2 = Some d2
        /\ id d1 = PyStr.str_of_int (hash html)
        /\ id d2 = PyStr.str_of_int (hash html)
        /\ forall (its : list iteration) (it : iteration) (rest : list iteration)
                  (self_ : scraper) (st' : run) (b a l1 l2 l3 : list node)
                  (tw1 tw2 : node),
             load_and_parse_tweets hash depth its self_ = (st', None) ->
             should_exit (self (deliver it st')) = false ->
             before it = Ok b -> scrolled it = Ok tt -> waited it = Ok tt ->
             after it = Ok a ->
             new_ones b a = l1 ++ tw1 :: l2 ++ tw2 :: l3 ->
             dom it tw1 = n1 -> dom it tw2 = n2 ->
             PyStr.str_of_int (hash html) ∉ processed_tweets (self st') ->
             (forall (tw : node) (t : tweet_data),
                 tw ∈ l1 -> parse_tweet hash depth (dom it tw) = Some t ->
                 id t <> PyStr.str_of_int (hash html)) ->
             with_id (PyStr.str_of_int (hash html))
               (all_tweets
                  (load_and_parse_tweets hash depth (its ++ it :: rest) self_).1)
             = [d1]).
Proof.
  intros Hid1 Hid2 Hh1 Hh2.
  split; [split; now apply tweet_id_fallback|].
  split.
  { intros st Hin.
    destruct (parse_tweet hash depth n2) as [d2|] eqn:Hp2; [|done].
    apply emit_known. now rewrite (parse_tweet_fallback hash depth n2 html d2). }
  split.
  { intros env self_. apply filter_id_NoDup. apply (run_collected hash depth env self_). }
  intros Hb1 Hb2.
  destruct (parse_tweet_builds n1 html Hid1 Hh1 Hb1) as (d1 & Hp1 & Hd1).
  destruct (parse_tweet_builds n2 html Hid2 Hh2 Hb2) as (d2 & Hp2 & Hd2).
  exists d1, d2. repeat (split; [done|]).
  intros its it rest self_ st' b a l1 l2 l3 tw1 tw2
         Hrun F Hb Hs Hw Ha Hnew Hn1 Hn2 Hfresh Hl1.
  set (i := PyStr.str_of_int (hash html)) in *.
  destruct (deliver_frame it st') as (Dall & _ & Dled).
  (* nothing with this identifier was collected before the pass *)
  assert (with_id i (all_tweets st') = []) as Hnone.
  { apply filter_id_absent. intros Hin.
    pose proof (run_collected hash depth its self_) as (HL & _ & _).
    rewrite Hrun in HL. simpl in HL. apply Hfresh. rewrite HL.
    apply elem_of_union_r, elem_of_list_to_set, Hin. }
  unfold load_and_parse_tweets in *.
  rewrite (loop_app hash depth _ _ _ _ Hrun). cbn [loop].
  unfold iterate. rewrite F, Hb, Hs, Hw, Ha, Hnew.
  set (st0 := issue QueryTweets (issue (WaitForTimeout 2000)
                (issue (ScrollBy 800) (issue QueryTweets (deliver it st'))))).
  assert (all_tweets st0 = all_tweets st') as A0 by exact Dall.
  assert (processed_tweets (self st0) = processed_tweets (self st')) as L0
    by exact Dled.
  (* the nodes before the first *)
  rewrite process_app.
  destruct (process_other i (dom it) l1 st0 Hl1) as [P1 Q1].
  set (st1 := process hash depth (dom it) l1 st0) in *.
  rewrite A0, Hnone in P1. rewrite L0 in Q1. specialize (Q1 Hfresh).
  (* the first *)
  change (process hash depth (dom it) (tw1 :: l2 ++ tw2 :: l3) st1)
    with (process hash depth (dom it) (l2 ++ tw2 :: l3)
            (emit (parse_tweet hash depth (dom it tw1)) st1)).
  rewrite Hn1, Hp1.
  destruct (emit_first d1 st1) as [E1 E2].
  { rewrite Hd1. apply str_of_int_not_empty. }
  { now rewrite Hd1. }
  rewrite Hd1 in E2. fold i in E2.
  assert (with_id i (all_tweets (emit (Some d1) st1)) = [d1]) as P2.
  { rewrite E1, filter_app, P1. simpl. now rewrite filter_cons_True, filter_nil. }
  (* the nodes after the first, then the passes after this one *)
  pose proof (process_ledgered i (dom it) (l2 ++ tw2 :: l3) _ E2) as P3.
  pose proof (process_mono hash depth (dom it) (l2 ++ tw2 :: l3)
                (emit (Some d1) st1) i E2) as E3.
  set (st2 := process hash depth (dom it) (l2 ++ tw2 :: l3) (emit (Some d1) st1)) in *.
  rewrite P2 in P3.
  destruct (l1 ++ tw1 :: l2 ++ tw2 :: l3) eqn:El; [now destruct l1|].
  now rewrite (loop_ledgered i rest st2 E3).
Qed.

End ContentHash.

Lemma content_hash_collision_witness :
  exists d1 : tweet_data,
    parse_tweet Sample.hash 3 (Sample.page 2%nat) = Some d1
    /\ id d1 = "4"
    /\ filter (fun t : tweet_data => id t = "4")
         (all_tweets
            (load_and_parse_tweets Sample.hash 3
               ([] ++ Sample.pass [] [2%nat; 3%nat] :: Sample.feed) init).1)
       = [d1].
Proof.
  destruct (content_hash_collision Sample.hash 3
              (Sample.page 2%nat) (Sample.page 3%nat) "<p>same</p>"
              eq_refl eq_refl eq_refl eq_refl)
    as (_ & _ & _ & H).
  destruct (H eq_refl eq_refl) as (d1 & d2 & Hp1 & _ & Hd1 & _ & Hrun).
  exists d1. split; [exact Hp1|]. split; [exact Hd1|].
  apply (Hrun [] (Sample.pass [] [2%nat; 3%nat]) Sample.feed init Sample.start
           [] [2%nat; 3%nat] [] [] [] 2%nat 3%nat);
    try reflexivity.
  - exact (not_elem_of_empty _).
  - intros tw t Hin. now apply not_elem_of_nil in Hin.
Defined.
